(** * HDB resale data transformation: feature engineering and data cleaning

    A shallow embedding of [data_transformation/feature_engineering.py]
    (nearest-location lookup, routed walking distance, per-batch enrichment
    and the batch loop of [__main__]) and of the remaining-lease transform of
    [data_transformation/data_cleaning.py], with the properties of the design
    document proved about them.

    Conventions of the embedding.
    - A Python value is a [pyval]; a [float64] is a [spec_float] (binary64,
      compared the IEEE way with [SFcompare]).
    - A raising call returns [Raise e]; effectful code runs in the monad [M],
      which threads the [world]: the heap of DataFrame objects, the trace of
      requests, writes and sleeps, and the output file.
    - The third-party [haversine] function and the remote routing service are
      parameters (Section variables). *)

From Stdlib Require Import String Ascii ZArith Lia Bool Arith PeanoNat QArith Qround Qabs Lqa List.
From Stdlib Require Import Floats.SpecFloat.
Import ListNotations.
Local Open Scope string_scope.
Local Open Scope list_scope.
Local Open Scope nat_scope.

(** ** Python values and exceptions *)

Definition float := spec_float.

#[warnings="-register-all"] Inductive pyval : Type :=
| PNone
| PBool (b : bool)
| PInt (z : Z)
| PFloat (f : float)
| PStr (s : string)
| PList (l : list pyval)
| PDict (d : list (string * pyval)).

(** Failures of [requests.get] itself ([requests.RequestException]
    subclasses raised before any response is available). *)
Inductive transport_error :=
  ConnectionError | Timeout | TooManyRedirects | InvalidHeader.

(** The exception classes the modelled code can raise. *)
Inductive exn :=
| ValueError
| KeyError (key : string)
| IndexError
| TypeError
| AttributeError
| RequestException (e : transport_error)
| HTTPError (status : Z)
| JSONDecodeError.

Inductive result (A : Type) : Type :=
| Ok (a : A)
| Raise (e : exn).
Arguments Ok {A} a.
Arguments Raise {A} e.

Module Res.
Definition bind {A B} (r : result A) (k : A -> result B) : result B :=
  match r with
  | Ok a => k a
  | Raise e => Raise e
  end.

Fixpoint mapM {A B} (f : A -> result B) (l : list A) : result (list B) :=
  match l with
  | [] => Ok []
  | x :: l' =>
      bind (f x) (fun y => bind (mapM f l') (fun ys => Ok (y :: ys)))
  end.
End Res.

Declare Scope res_scope.
Delimit Scope res_scope with res.
Notation "x <- c ;; k" := (Res.bind c (fun x => k))
  (at level 61, c at next level, right associativity) : res_scope.

(** ** Floats *)

Definition prec : Z := 53.
Definition emax : Z := 1024.

Definition nan : float := S754_nan.
Definition f_zero : float := S754_zero false.
(** 1.0 as a binary64: mantissa 2^52, exponent -52. *)
Definition f_one : float := S754_finite false 4503599627370496 (-52).

Definition is_nan (x : float) : bool :=
  match x with S754_nan => true | _ => false end.

(** ** DataFrames

    A DataFrame is an ordered list of column labels and a list of rows, in
    index order; each row holds one cell per column. *)

Record DataFrame := {
  df_columns : list string;
  df_rows : list (list pyval)
}.

(** A row taken out of a frame ([df.iloc[i]]): labels and the row's cells. *)
Record Series := {
  s_index : list string;
  s_values : list pyval
}.

Definition df_wf (df : DataFrame) : Prop :=
  Forall (fun r => length r = length (df_columns df)) (df_rows df).

Fixpoint index_of (name : string) (cols : list string) : option nat :=
  match cols with
  | [] => None
  | c :: cols' =>
      if String.eqb c name then Some 0
      else option_map S (index_of name cols')
  end.

(** [len(df)] *)
Definition df_len (df : DataFrame) : nat := length (df_rows df).

(** [df[name]]: the cells of one column, in row order. *)
Definition df_getitem (df : DataFrame) (name : string) : result (list pyval) :=
  match index_of name (df_columns df) with
  | None => Raise (KeyError name)
  | Some j => Ok (map (fun r => nth j r PNone) (df_rows df))
  end.

(** [df.iloc[i]] for a non-negative position. *)
Definition df_iloc (df : DataFrame) (i : nat) : result Series :=
  match nth_error (df_rows df) i with
  | None => Raise IndexError
  | Some r => Ok {| s_index := df_columns df; s_values := r |}
  end.

(** [row[name]] *)
Definition series_getitem (s : Series) (name : string) : result pyval :=
  match index_of name (s_index s) with
  | None => Raise (KeyError name)
  | Some j => Ok (nth j (s_values s) PNone)
  end.

(** [df.iloc[start:stop]] for non-negative bounds: Python slicing clips. *)
Definition df_iloc_slice (df : DataFrame) (start stop : nat) : DataFrame :=
  {| df_columns := df_columns df;
     df_rows := firstn (stop - start) (skipn start (df_rows df)) |}.

Fixpoint set_nth {A} (j : nat) (v : A) (l : list A) : list A :=
  match l, j with
  | [], _ => []
  | _ :: l', O => v :: l'
  | x :: l', S j' => x :: set_nth j' v l'
  end.

Fixpoint zip_with {A B C} (f : A -> B -> C) (l1 : list A) (l2 : list B)
  : list C :=
  match l1, l2 with
  | a :: l1', b :: l2' => f a b :: zip_with f l1' l2'
  | _, _ => []
  end.

(** [df[name] = values] with a list: the list must have one entry per row;
    an existing column is overwritten in place, a new label is appended as
    the last column. *)
Definition df_setitem (df : DataFrame) (name : string) (values : list pyval)
  : result DataFrame :=
  if negb (length values =? df_len df) then Raise ValueError
  else
    match index_of name (df_columns df) with
    | Some j =>
        Ok {| df_columns := df_columns df;
              df_rows := zip_with (fun r v => set_nth j v r) (df_rows df) values |}
    | None =>
        Ok {| df_columns := df_columns df ++ [name];
              df_rows := zip_with (fun r v => r ++ [v]) (df_rows df) values |}
    end.

(** ** [numpy.argmin] on a one-dimensional float array

    The index of the first minimum; a NaN counts as minimal and the scan stops
    at the first one.  [mp] is the running minimum, found at [min_ind]; [i] is
    the index of the head of the rest. The test is [!(x >= mp)]. *)
Fixpoint argmin_scan (mp : float) (min_ind i : nat) (l : list float) : nat :=
  match l with
  | [] => min_ind
  | x :: l' =>
      if negb (SFleb mp x) then
        if is_nan x then i else argmin_scan x i (S i) l'
      else argmin_scan mp min_ind (S i) l'
  end.

Definition np_argmin (a : list float) : result nat :=
  match a with
  | [] => Raise ValueError
  | x :: l => if is_nan x then Ok 0 else Ok (argmin_scan x 0 1 l)
  end.

(** ** The world: heap, trace and output file *)

(** A routing request, as [get_distance] builds it: the two coordinate pairs
    (kept as values, not formatted into text), the route type and the
    [Authorization] header. *)
Record request := {
  req_url : string;
  req_start : pyval * pyval;
  req_end : pyval * pyval;
  req_routeType : string;
  req_authorization : pyval
}.

(** What [requests.get] comes back with: a transport failure, or a response
    with its status code and its body; the body is [None] when it is not
    valid JSON, and the decoded value otherwise. *)
Inductive http_outcome :=
| TransportFailure (e : transport_error)
| Response (status : Z) (body : option pyval).

Inductive csv_line :=
| HeaderLine (labels : list string)
| DataLine (cells : list pyval).

(** What the run does to the outside: a call of [requests.get], an append
    to the output file, a sleep, a call of [requests.post] with its URL and
    its JSON payload. *)
Inductive event :=
| EvRequest (r : request)
| EvAppend (lines : list csv_line)
| EvSleep (seconds : Z)
| EvPost (url : string) (json : pyval).

Definition ref := nat.

Record world := {
  heap : ref -> DataFrame;       (* the DataFrame objects, by reference *)
  next_ref : ref;                (* the next fresh reference *)
  trace : list event;            (* oldest event first *)
  out_file : list csv_line       (* datasets/HDB_Features.csv *)
}.

Definition M (A : Type) : Type := world -> result A * world.

Module St.
Definition ret {A} (a : A) : M A := fun w => (Ok a, w).

Definition bind {A B} (c : M A) (k : A -> M B) : M B :=
  fun w =>
    match c w with
    | (Ok a, w') => k a w'
    | (Raise e, w') => (Raise e, w')
    end.

Definition lift {A} (r : result A) : M A := fun w => (r, w).

(** [try: body except Exception: handler]; every class of [exn] derives
    from [Exception]. *)
Definition try_except {A} (body : M A) (handler : exn -> M A) : M A :=
  fun w =>
    match body w with
    | (Ok a, w') => (Ok a, w')
    | (Raise e, w') => handler e w'
    end.

Definition emit (ev : event) : M unit :=
  fun w =>
    (Ok tt, {| heap := heap w; next_ref := next_ref w;
               trace := trace w ++ [ev]; out_file := out_file w |}).

Definition deref (r : ref) : M DataFrame := fun w => (Ok (heap w r), w).

Definition store (r : ref) (df : DataFrame) : M unit :=
  fun w =>
    (Ok tt, {| heap := fun r' => if r' =? r then df else heap w r';
               next_ref := next_ref w;
               trace := trace w; out_file := out_file w |}).

(** A new object holding [df] ([.copy()]). *)
Definition alloc (df : DataFrame) : M ref :=
  fun w =>
    (Ok (next_ref w),
     {| heap := fun r' => if r' =? next_ref w then df else heap w r';
        next_ref := S (next_ref w);
        trace := trace w; out_file := out_file w |}).

Definition append_file (lines : list csv_line) : M unit :=
  fun w =>
    (Ok tt, {| heap := heap w; next_ref := next_ref w;
               trace := trace w ++ [EvAppend lines];
               out_file := out_file w ++ lines |}).

(** [for i in range(n): body(i)] *)
Fixpoint for_range_from (i n : nat) (body : nat -> M unit) : M unit :=
  match n with
  | O => ret tt
  | S n' => bind (body i) (fun _ => for_range_from (S i) n' body)
  end.

Definition for_range (n : nat) (body : nat -> M unit) : M unit :=
  for_range_from 0 n body.
End St.

Declare Scope m_scope.
Delimit Scope m_scope with m.
Notation "x <- c ;; k" := (St.bind c (fun x => k))
  (at level 61, c at next level, right associativity) : m_scope.
Notation "c ;; k" := (St.bind c (fun _ => k))
  (at level 61, right associativity) : m_scope.

Definition ROUTE_URL : string :=
  "https://www.onemap.gov.sg/api/public/routingsvc/route".

Fixpoint assoc_get (key : string) (d : list (string * pyval)) : option pyval :=
  match d with
  | [] => None
  | (k, v) :: d' => if String.eqb k key then Some v else assoc_get key d'
  end.

(** [obj.get(key, default)]: only a dict has the method. *)
Definition py_get (obj : pyval) (key : string) (default : pyval)
  : result pyval :=
  match obj with
  | PDict d =>
      Ok (match assoc_get key d with Some v => v | None => default end)
  | _ => Raise AttributeError
  end.

(** [response.raise_for_status()]: 4xx and 5xx raise. *)
Definition raise_for_status (status : Z) : result unit :=
  if ((400 <=? status) && (status <? 600))%Z then Raise (HTTPError status)
  else Ok tt.

(** [response.json()] *)
Definition response_json (body : option pyval) : result pyval :=
  match body with
  | Some v => Ok v
  | None => Raise JSONDecodeError
  end.

(** [df.to_csv(path, index=False, mode='a', header=...)] on the output
    file: the label line first when [header] is set, then one line per row. *)
Definition to_csv (df : DataFrame) (header : bool) : M unit :=
  St.append_file
    ((if header then [HeaderLine (df_columns df)] else [])
       ++ map DataLine (df_rows df)).

(** [time.sleep(seconds)] *)
Definition sleep (seconds : Z) : M unit := St.emit (EvSleep seconds).

Definition within_cell (w : option bool) : pyval :=
  match w with
  | None => PNone
  | Some b => PBool b
  end.

Section FeatureEngineering.

(** [haversine(p, q, unit=Unit.KILOMETERS)] of the third-party package, on
    two (latitude, longitude) pairs as the code passes them; it may raise
    (non-numeric coordinates, for instance). *)
Variable haversine : pyval * pyval -> pyval * pyval -> result float.

Local Open Scope res_scope.

(** *** [nearest_loc] *)
Definition nearest_loc (hdb_lat hdb_lon : pyval) (loc_df : DataFrame)
  : result (pyval * pyval * pyval * option bool) :=
  let hdb_point := (hdb_lat, hdb_lon) in
  lats <- df_getitem loc_df "Lat" ;;
  longs <- df_getitem loc_df "Long" ;;
  let loc_points := combine lats longs in
  dists <- Res.mapM (fun loc => haversine hdb_point loc) loc_points ;;
  min_idx <- np_argmin dists ;;
  let d := nth min_idx dists nan in
  let within_1km := if SFeqb d f_zero then None else Some (SFleb d f_one) in
  nearest <- df_iloc loc_df min_idx ;;
  address <- series_getitem nearest "Address" ;;
  lat <- series_getitem nearest "Lat" ;;
  long <- series_getitem nearest "Long" ;;
  Ok (address, lat, long, within_1km).

Local Close Scope res_scope.
Local Open Scope m_scope.

(** The routing service: its answer to a request, given everything that
    happened before. *)
Variable routing_service : list event -> request -> http_outcome.

(** [requests.get(url, params=..., headers=...)] *)
Definition requests_get (r : request) : M (Z * option pyval) :=
  fun w =>
    let w' := {| heap := heap w; next_ref := next_ref w;
                 trace := trace w ++ [EvRequest r];
                 out_file := out_file w |} in
    match routing_service (trace w) r with
    | TransportFailure e => (Raise (RequestException e), w')
    | Response status body => (Ok (status, body), w')
    end.

(** *** [get_distance] *)

(** The request [get_distance] sends: [start], [end], [routeType] and the
    [Authorization] header. *)
Definition route_request (hdb_lat hdb_long loc_lat loc_long api_token : pyval)
  : request :=
  {| req_url := ROUTE_URL;
     req_start := (hdb_lat, hdb_long);
     req_end := (loc_lat, loc_long);
     req_routeType := "walk";
     req_authorization := api_token |}.

Definition get_distance (hdb_lat hdb_long loc_lat loc_long api_token : pyval)
  : M pyval :=
  St.try_except
    (response <- requests_get
                   (route_request hdb_lat hdb_long loc_lat loc_long api_token) ;;
     St.lift (raise_for_status (fst response)) ;;
     body <- St.lift (response_json (snd response)) ;;
     route_summary <- St.lift (py_get body "route_summary" (PDict [])) ;;
     St.lift (py_get route_summary "total_distance" PNone))
    (fun _ => St.ret PNone).

(** *** [engineer_distance_features] *)

(** The six result lists of the loop. *)
Record features := {
  nearest_mrt : list pyval;
  mrt_distances : list pyval;
  nearest_mall : list pyval;
  mall_distances : list pyval;
  nearest_school : list pyval;
  within_1km : list pyval
}.

Definition no_features : features :=
  {| nearest_mrt := []; mrt_distances := [];
     nearest_mall := []; mall_distances := [];
     nearest_school := []; within_1km := [] |}.

(** One pass of the loop body for the subject at ([hdb_lat], [hdb_long]). *)
Definition enrich_step (mrts malls schools : ref) (api_token : pyval)
    (acc : features) (hdb_lat hdb_long : pyval) : M features :=
  mrts_df <- St.deref mrts ;;
  r1 <- St.lift (nearest_loc hdb_lat hdb_long mrts_df) ;;
  let '(mrt, mrt_lat, mrt_long, _) := r1 in
  mrt_dist <- get_distance hdb_lat hdb_long mrt_lat mrt_long api_token ;;
  malls_df <- St.deref malls ;;
  r2 <- St.lift (nearest_loc hdb_lat hdb_long malls_df) ;;
  let '(mall, mall_lat, mall_long, _) := r2 in
  mall_dist <- get_distance hdb_lat hdb_long mall_lat mall_long api_token ;;
  schools_df <- St.deref schools ;;
  r3 <- St.lift (nearest_loc hdb_lat hdb_long schools_df) ;;
  let '(school, _, _, school_1km) := r3 in
  St.ret {| nearest_mrt := nearest_mrt acc ++ [mrt];
            mrt_distances := mrt_distances acc ++ [mrt_dist];
            nearest_mall := nearest_mall acc ++ [mall];
            mall_distances := mall_distances acc ++ [mall_dist];
            nearest_school := nearest_school acc ++ [school];
            within_1km := within_1km acc ++ [within_cell school_1km] |}.

Fixpoint enrich_loop (mrts malls schools : ref) (api_token : pyval)
    (acc : features) (points : list (pyval * pyval)) : M features :=
  match points with
  | [] => St.ret acc
  | (hdb_lat, hdb_long) :: rest =>
      acc' <- enrich_step mrts malls schools api_token acc hdb_lat hdb_long ;;
      enrich_loop mrts malls schools api_token acc' rest
  end.

(** [hdbs[name] = values], on the object [hdbs] refers to. *)
Definition assign_column (hdbs : ref) (name : string) (values : list pyval)
  : M unit :=
  df <- St.deref hdbs ;;
  df' <- St.lift (df_setitem df name values) ;;
  St.store hdbs df'.

Definition engineer_distance_features
    (hdbs mrts malls schools : ref) (api_token : pyval) : M ref :=
  hdbs_df <- St.deref hdbs ;;
  lat <- St.lift (df_getitem hdbs_df "Lat") ;;
  long <- St.lift (df_getitem hdbs_df "Long") ;;
  acc <- enrich_loop mrts malls schools api_token no_features
           (combine lat long) ;;
  assign_column hdbs "Nearest_MRT" (nearest_mrt acc) ;;
  assign_column hdbs "Distance_MRT" (mrt_distances acc) ;;
  assign_column hdbs "Nearest_Mall" (nearest_mall acc) ;;
  assign_column hdbs "Distance_Mall" (mall_distances acc) ;;
  assign_column hdbs "Nearest_Pri_Sch" (nearest_school acc) ;;
  assign_column hdbs "Within_1km_of_Pri" (within_1km acc) ;;
  St.ret hdbs.

(** *** The batch loop of [__main__]

    The loop that follows authentication and the reading of the four
    tables, with the batch size as an argument; the script runs it with
    [BATCH_SIZE]. The batch size is at least 1 ([//] by 0 raises in Python
    and is 0 here). *)

Definition BATCHES (batch_size len : nat) : nat :=
  (len + batch_size - 1) / batch_size.

Definition batch_start (batch_size i : nat) : nat := i * batch_size.

Definition batch_end (batch_size len i : nat) : nat :=
  Nat.min (batch_start batch_size i + batch_size) len.

(** [hdbs.iloc[start:end]] of batch [i] *)
Definition batch_of (batch_size : nat) (hdbs_df : DataFrame) (i : nat)
  : DataFrame :=
  df_iloc_slice hdbs_df (batch_start batch_size i)
    (batch_end batch_size (df_len hdbs_df) i).

(** The body of the loop, for batch [i]. *)
Definition batch_body (batch_size : nat)
    (hdbs mrts malls schools : ref) (api_token : pyval) (i : nat) : M unit :=
  hdbs_df <- St.deref hdbs ;;
  batch <- St.alloc (batch_of batch_size hdbs_df i) ;;
  batch_engineered_features <-
    engineer_distance_features batch mrts malls schools api_token ;;
  out <- St.deref batch_engineered_features ;;
  to_csv out false ;;
  sleep 30.

Definition batch_loop (batch_size : nat)
    (hdbs mrts malls schools : ref) (api_token : pyval) : M unit :=
  hdbs_df <- St.deref hdbs ;;
  St.for_range (BATCHES batch_size (df_len hdbs_df))
    (batch_body batch_size hdbs mrts malls schools api_token).

Definition BATCH_SIZE : nat := 100.

Definition main (hdbs mrts malls schools : ref) (api_token : pyval)
  : M unit :=
  batch_loop BATCH_SIZE hdbs mrts malls schools api_token.

End FeatureEngineering.

(** ** Authentication and the start of the script *)

Definition TOKEN_URL : string :=
  "https://www.onemap.gov.sg/api/auth/post/getToken".

(** The credentials of the module: both are [None] until filled in. *)
Definition EMAIL : pyval := PNone.
Definition PASSWORD : pyval := PNone.

(** [isinstance(e, requests.RequestException)]: the transport failures,
    [HTTPError] of [raise_for_status], and the [JSONDecodeError] that
    [response.json()] raises (requests 2.27 and later). *)
Definition is_RequestException (e : exn) : bool :=
  match e with
  | RequestException _ | HTTPError _ | JSONDecodeError => true
  | _ => false
  end.

(** How the script ends when no exception escapes: it runs to its last
    line, or leaves through [exit(code)]. *)
Inductive script_end :=
| Finished
| Exit (code : Z).

Section Script.

Variable haversine : pyval * pyval -> pyval * pyval -> result float.
Variable routing_service : list event -> request -> http_outcome.

(** The token service: its answer to the POST of the payload
    [{"email": email, "password": password}]. *)
Variable token_service : pyval -> pyval -> http_outcome.

(** [payload = {"email": EMAIL, "password": PASSWORD}] *)
Definition payload : pyval :=
  PDict [("email", EMAIL); ("password", PASSWORD)].

(** [requests.post(url, json={"email": email, "password": password})]:
    the call is recorded in the trace whatever comes back. *)
Definition requests_post (url : string) (email password : pyval)
  : M (Z * option pyval) :=
  fun w =>
    let w' := {| heap := heap w; next_ref := next_ref w;
                 trace := trace w
                          ++ [EvPost url (PDict [("email", email);
                                                 ("password", password)])];
                 out_file := out_file w |} in
    match token_service email password with
    | TransportFailure e => (Raise (RequestException e), w')
    | Response status body => (Ok (status, body), w')
    end.

Local Open Scope m_scope.

(** *** [authenticate]

    [except requests.RequestException] catches that class only: any other
    exception goes on to the caller. *)
Definition authenticate : M pyval :=
  St.try_except
    (response <- requests_post TOKEN_URL EMAIL PASSWORD ;;
     St.lift (raise_for_status (fst response)) ;;
     body <- St.lift (response_json (snd response)) ;;
     St.lift (py_get body "access_token" PNone))
    (fun e => if is_RequestException e then St.ret PNone
              else St.lift (Raise e)).

(** [api_token is None] *)
Definition is_None (v : pyval) : bool :=
  match v with PNone => true | _ => false end.

(** *** [__main__]: authentication, then the batch loop over the four
    tables as read from their files. *)
Definition script (hdbs mrts malls schools : ref) : M script_end :=
  api_token <- authenticate ;;
  if is_None api_token then St.ret (Exit 1)
  else
    (main haversine routing_service hdbs mrts malls schools api_token ;;
     St.ret Finished).

Local Close Scope m_scope.

End Script.

(** ** The remaining-lease transform of [clean_data]

    Text is ASCII; numbers are exact rationals, so [int + int/12] and
    [round(_, 3)] are modelled by their mathematical values and the final
    rounding of the result to a binary64 is left out. This is the value the
    code computes as long as its binary64 arithmetic cannot move the sum
    across a rounding boundary, which holds for years and months up to
    [10^9]; from [2^53] on the conversion of the years to a binary64 rounds,
    and numerals too long for a binary64 raise [OverflowError]: neither is
    modelled, and the statements about values keep to the bounds. *)
Module Cleaning.

(** [str.isspace] on one ASCII character. *)
Definition is_space (c : ascii) : bool :=
  let n := nat_of_ascii c in
  ((9 <=? n) && (n <=? 13)) || ((28 <=? n) && (n <=? 32)).

Definition is_digit (c : ascii) : bool :=
  let n := nat_of_ascii c in
  (48 <=? n) && (n <=? 57).

Definition digit_value (c : ascii) : Z := Z.of_nat (nat_of_ascii c - 48).

(** [x.split()]: the maximal runs of non-whitespace characters. [cur] is
    the token being read. *)
Fixpoint split_from (cur : string) (x : string) : list string :=
  match x with
  | EmptyString => if String.eqb cur "" then [] else [cur]
  | String c x' =>
      if is_space c then
        if String.eqb cur "" then split_from "" x'
        else cur :: split_from "" x'
      else split_from (cur ++ String c "") x'
  end.

Definition split (x : string) : list string := split_from "" x.

(** [tokens[i]] *)
Definition list_getitem (tokens : list string) (i : nat) : result string :=
  match nth_error tokens i with
  | Some t => Ok t
  | None => Raise IndexError
  end.

(** [sub in x] *)
Fixpoint contains (sub x : string) : bool :=
  String.prefix sub x ||
  match x with
  | EmptyString => false
  | String _ x' => contains sub x'
  end.

(** The digits of an [int] literal: decimal digits, with single underscores
    allowed between digits. [after_digit] tells whether the previous
    character was a digit. *)
Fixpoint int_digits (acc : Z) (after_digit : bool) (s : string) : option Z :=
  match s with
  | EmptyString => if after_digit then Some acc else None
  | String c s' =>
      if is_digit c then int_digits (10 * acc + digit_value c) true s'
      else if Ascii.eqb c "_"%char && after_digit then
        match s' with
        | EmptyString => None
        | _ => int_digits acc false s'
        end
      else None
  end.

(** [int(token)] on a token without whitespace: an optional sign and the
    digits. *)
Definition py_int (token : string) : result Z :=
  let signed :=
    match token with
    | String "-"%char s' => option_map Z.opp (int_digits 0 false s')
    | String "+"%char s' => int_digits 0 false s'
    | _ => int_digits 0 false token
    end in
  match signed with
  | Some z => Ok z
  | None => Raise ValueError
  end.

Local Open Scope Q_scope.

(** Rounding to the nearest integer, ties to even. *)
Definition round_half_even (q : Q) : Z :=
  let f := Qfloor q in
  let r := q - inject_Z f in
  match Qcompare r (1 # 2) with
  | Lt => f
  | Gt => (f + 1)%Z
  | Eq => if Z.even f then f else (f + 1)%Z
  end.

(** [round(q, ndigits)] for [ndigits >= 0] *)
Definition py_round (q : Q) (ndigits : nat) : Q :=
  let scale := (10 ^ Z.of_nat ndigits)%Z in
  inject_Z (round_half_even (q * inject_Z scale)) / inject_Z scale.

Local Open Scope res_scope.

(** The lambda applied to each cell of the [remaining_lease] column:
    [round(int(x.split()[0])
           + (int(x.split()[2]) if "month" in x else 0)/12, 3)] *)
Definition remaining_lease (x : string) : result Q :=
  t0 <- list_getitem (split x) 0 ;;
  years <- py_int t0 ;;
  months <-
    (if contains "month" x then
       t2 <- list_getitem (split x) 2 ;;
       py_int t2
     else Ok 0%Z) ;;
  Ok (py_round (inject_Z years + inject_Z months / 12) 3).

(** A decimal numeral: a non-empty string of digits, and its value. *)
Fixpoint all_digits (s : string) : bool :=
  match s with
  | EmptyString => true
  | String c s' => is_digit c && all_digits s'
  end.

Definition numeral (s : string) : Prop := s <> "" /\ all_digits s = true.

Fixpoint decimal_value (acc : Z) (s : string) : Z :=
  match s with
  | EmptyString => acc
  | String c s' => decimal_value (10 * acc + digit_value c) s'
  end.

End Cleaning.

(** ** The other cell transforms of [clean_data], and [remove_outliers] *)
Module DataCleaning.

(** The flat-type codes. *)
Definition FLAT_TYPE_MAP : list (string * Z) :=
  [("1 ROOM", 0%Z); ("2 ROOM", 1%Z); ("3 ROOM", 2%Z); ("4 ROOM", 3%Z);
   ("5 ROOM", 4%Z); ("EXECUTIVE", 5%Z); ("MULTI-GENERATION", 6%Z)].

Fixpoint dict_lookup (key : string) (d : list (string * Z)) : option Z :=
  match d with
  | [] => None
  | (k, v) :: d' => if String.eqb k key then Some v else dict_lookup key d'
  end.

(** One cell of [df["flat_type"].map(FLAT_TYPE_MAP)]; [None] is the NaN of a
    key the dict does not have. *)
Definition flat_type (x : string) : option Z := dict_lookup x FLAT_TYPE_MAP.

(** The match of [^(\d+)] on [x]: the longest run of digits [x] begins
    with. *)
Fixpoint leading_digits (x : string) : string :=
  match x with
  | EmptyString => EmptyString
  | String c x' =>
      if Cleaning.is_digit c then String c (leading_digits x')
      else EmptyString
  end.

(** One cell of
    [pd.to_numeric(df["storey_range"].str.extract(r"^(\d+)")[0],
                   errors="coerce")]:
    the number the cell begins with, or NaN ([None]) when it begins with no
    digit. The number is given by its value, which the column holds as it
    is, as an integer or as a binary64, for numerals of up to 15 digits. *)
Definition storey (x : string) : option Z :=
  let digits := leading_digits x in
  if String.eqb digits "" then None
  else Some (Cleaning.decimal_value 0 digits).

(** 0.25, 0.75 and 1.5 as binary64. *)
Definition f_0_25 : float := S754_finite false 4503599627370496 (-54).
Definition f_0_75 : float := S754_finite false 6755399441055744 (-53).
Definition f_1_5 : float := S754_finite false 6755399441055744 (-52).

(** The float a numeric cell is compared as, an integer as the binary64
    nearest to it; a cell that is no number cannot be compared with a
    float. *)
Definition as_number (c : pyval) : result float :=
  match c with
  | PFloat f => Ok f
  | PInt z => Ok (binary_normalize prec emax z 0 false)
  | PBool b => Ok (if b then f_one else f_zero)
  | _ => Raise TypeError
  end.

(** One entry of [(column >= lower_bound) & (column <= upper_bound)]: a
    missing value compares false, as NaN does. *)
Definition in_bounds (lower_bound upper_bound : float) (c : pyval)
  : result bool :=
  match c with
  | PNone => Ok false
  | _ =>
      (x <- as_number c ;;
       Ok (SFleb lower_bound x && SFleb x upper_bound))%res
  end.

(** [df[mask]]: the rows whose mask entry is true. *)
Fixpoint select_rows (rows : list (list pyval)) (mask : list bool)
  : list (list pyval) :=
  match rows, mask with
  | r :: rows', b :: mask' =>
      if b then r :: select_rows rows' mask' else select_rows rows' mask'
  | _, _ => []
  end.

Section Outliers.

(** [Series.quantile(q)] of pandas on the cells of a column. *)
Variable quantile : list pyval -> float -> result float.

Local Open Scope res_scope.

(** One pass of the loop of [remove_outliers], for the column [col]. *)
Definition remove_outliers_step (df_clean : DataFrame) (col : string)
  : result DataFrame :=
  if existsb (String.eqb col) (df_columns df_clean) then
    column <- df_getitem df_clean col ;;
    q1 <- quantile column f_0_25 ;;
    q3 <- quantile column f_0_75 ;;
    let iqr := SFsub prec emax q3 q1 in
    let lower_bound := SFsub prec emax q1 (SFmul prec emax f_1_5 iqr) in
    let upper_bound := SFadd prec emax q3 (SFmul prec emax f_1_5 iqr) in
    mask <- Res.mapM (in_bounds lower_bound upper_bound) column ;;
    Ok {| df_columns := df_columns df_clean;
          df_rows := select_rows (df_rows df_clean) mask |}
  else Ok df_clean.

Fixpoint remove_outliers_loop (df_clean : DataFrame) (columns : list string)
  : result DataFrame :=
  match columns with
  | [] => Ok df_clean
  | col :: rest =>
      df_clean' <- remove_outliers_step df_clean col ;;
      remove_outliers_loop df_clean' rest
  end.

(** [remove_outliers]: the loop runs on a copy, which the frame as a value
    is. *)
Definition remove_outliers (df : DataFrame) (columns : list string)
  : result DataFrame :=
  remove_outliers_loop df columns.

End Outliers.

End DataCleaning.

(** ** Vocabulary of the statements *)

(** [k] is a position of [a] whose entry no entry is below, and which no
    earlier entry equals; when [a] has no NaN, the entry at [k] is at most
    every entry. *)
Definition first_min (a : list float) (k : nat) : Prop :=
  k < length a /\
  (forall j, j < length a -> SFltb (nth j a nan) (nth k a nan) = false) /\
  (forall j, j < k -> SFeqb (nth j a nan) (nth k a nan) = false) /\
  ((forall j, j < length a -> is_nan (nth j a nan) = false) ->
   forall j, j < length a -> SFleb (nth k a nan) (nth j a nan) = true).

(** The cell of [row] under the label [name], for a row of [df]. *)
Definition cell (df : DataFrame) (row : list pyval) (name : string) : pyval :=
  match index_of name (df_columns df) with
  | Some j => nth j row PNone
  | None => PNone
  end.

Definition has_column (df : DataFrame) (name : string) : Prop :=
  In name (df_columns df).

(** The coordinates of a candidate row. *)
Definition location (df : DataFrame) (row : list pyval) : pyval * pyval :=
  (cell df row "Lat", cell df row "Long").

(** The distance [haversine] computes from the query point to a candidate
    row (NaN stands in where [haversine] raises). *)
Definition distance_to (haversine : pyval * pyval -> pyval * pyval -> result float)
    (query : pyval * pyval) (df : DataFrame) (row : list pyval) : float :=
  match haversine query (location df row) with
  | Ok d => d
  | Raise _ => nan
  end.

(** [haversine] returns, without raising, on every candidate of [df]. *)
Definition distances_defined
    (haversine : pyval * pyval -> pyval * pyval -> result float)
    (query : pyval * pyval) (df : DataFrame) : Prop :=
  forall row, In row (df_rows df) ->
    exists d, haversine query (location df row) = Ok d.

(** The world after the events [ev]. *)
Definition logged (ev : list event) (w : world) : world :=
  {| heap := heap w; next_ref := next_ref w;
     trace := trace w ++ ev; out_file := out_file w |}.

(** What [get_distance] makes of the outcome of its request. *)
Definition distance_of (o : http_outcome) : pyval :=
  match o with
  | TransportFailure _ => PNone
  | Response status body =>
      if ((400 <=? status) && (status <? 600))%Z then PNone
      else
        match body with
        | Some (PDict d) =>
            match assoc_get "route_summary" d with
            | None => PNone
            | Some (PDict rs) =>
                match assoc_get "total_distance" rs with
                | Some v => v
                | None => PNone
                end
            | Some _ => PNone
            end
        | _ => PNone
        end
  end.

(** What the loop works out for one subject: the nearest station and mall
    with their coordinates and routed distances, the nearest school and its
    within-1km flag. *)
Record enrichment := {
  e_mrt : pyval;
  e_mrt_at : pyval * pyval;
  e_mrt_dist : pyval;
  e_mall : pyval;
  e_mall_at : pyval * pyval;
  e_mall_dist : pyval;
  e_school : pyval;
  e_school_1km : option bool
}.

(** The six cells a subject's record gains, in column order. *)
Definition enrichment_cells (e : enrichment) : list pyval :=
  [e_mrt e; e_mrt_dist e; e_mall e; e_mall_dist e; e_school e;
   within_cell (e_school_1km e)].

Definition new_columns : list string :=
  ["Nearest_MRT"; "Distance_MRT"; "Nearest_Mall"; "Distance_Mall";
   "Nearest_Pri_Sch"; "Within_1km_of_Pri"].

Definition mrt_request (api_token : pyval) (p : pyval * pyval) (e : enrichment)
  : request :=
  route_request (fst p) (snd p) (fst (e_mrt_at e)) (snd (e_mrt_at e)) api_token.

Definition mall_request (api_token : pyval) (p : pyval * pyval) (e : enrichment)
  : request :=
  route_request (fst p) (snd p) (fst (e_mall_at e)) (snd (e_mall_at e)) api_token.

(** The requests sent for one subject: to the nearest station, then to the
    nearest mall. *)
Definition subject_requests (api_token : pyval) (p : pyval * pyval)
    (e : enrichment) : list event :=
  [EvRequest (mrt_request api_token p e);
   EvRequest (mall_request api_token p e)].

(** The result lists after one more subject. *)
Definition extend (acc : features) (e : enrichment) : features :=
  {| nearest_mrt := nearest_mrt acc ++ [e_mrt e];
     mrt_distances := mrt_distances acc ++ [e_mrt_dist e];
     nearest_mall := nearest_mall acc ++ [e_mall e];
     mall_distances := mall_distances acc ++ [e_mall_dist e];
     nearest_school := nearest_school acc ++ [e_school e];
     within_1km := within_1km acc ++ [within_cell (e_school_1km e)] |}.

Section Enrichment.

Variable haversine : pyval * pyval -> pyval * pyval -> result float.
Variable routing_service : list event -> request -> http_outcome.
Variables mrts_df malls_df schools_df : DataFrame.
Variable api_token : pyval.

(** The three nearest-location lookups of the subject at [p] return. *)
Definition lookups_succeed (p : pyval * pyval) : Prop :=
  (exists r, nearest_loc haversine (fst p) (snd p) mrts_df = Ok r) /\
  (exists r, nearest_loc haversine (fst p) (snd p) malls_df = Ok r) /\
  (exists r, nearest_loc haversine (fst p) (snd p) schools_df = Ok r).

(** [e] is the enrichment of the subject at [p] when the trace so far is
    [tr]: the station and the mall are those [nearest_loc] returns and their
    distances are what the routing service answers, first for the station,
    then for the mall; the school and its flag are those [nearest_loc]
    returns. *)
Definition enriches (tr : list event) (p : pyval * pyval) (e : enrichment)
  : Prop :=
  (exists near,
     nearest_loc haversine (fst p) (snd p) mrts_df
     = Ok (e_mrt e, fst (e_mrt_at e), snd (e_mrt_at e), near)) /\
  e_mrt_dist e
  = distance_of (routing_service tr (mrt_request api_token p e)) /\
  (exists near,
     nearest_loc haversine (fst p) (snd p) malls_df
     = Ok (e_mall e, fst (e_mall_at e), snd (e_mall_at e), near)) /\
  e_mall_dist e
  = distance_of (routing_service (tr ++ [EvRequest (mrt_request api_token p e)])
                   (mall_request api_token p e)) /\
  (exists lat long,
     nearest_loc haversine (fst p) (snd p) schools_df
     = Ok (e_school e, lat, long, e_school_1km e)).

(** The same for a list of subjects, processed in order. *)
Fixpoint enriched (tr : list event) (ps : list (pyval * pyval))
    (es : list enrichment) : Prop :=
  match ps, es with
  | [], [] => True
  | p :: ps', e :: es' =>
      enriches tr p e /\
      enriched (tr ++ subject_requests api_token p e) ps' es'
  | _, _ => False
  end.

End Enrichment.

(** The requests of a list of subjects. *)
Definition all_requests (api_token : pyval) (ps : list (pyval * pyval))
    (es : list enrichment) : list event :=
  concat (zip_with (subject_requests api_token) ps es).

(** The coordinates of the subjects of a frame, as the loop reads them. *)
Definition points (df : DataFrame) : list (pyval * pyval) :=
  map (location df) (df_rows df).

Definition is_request (ev : event) : bool :=
  match ev with EvRequest _ => true | _ => false end.

Definition is_sleep (ev : event) : bool :=
  match ev with EvSleep _ => true | _ => false end.

Definition is_header (l : csv_line) : bool :=
  match l with HeaderLine _ => true | DataLine _ => false end.

Definition count {A} (f : A -> bool) (l : list A) : nat :=
  length (filter f l).

(** The world after [hdbs[name] = values] took effect on the object [r]. *)
Definition updated (r : ref) (df : DataFrame) (w : world) : world :=
  {| heap := fun r' => if r' =? r then df else heap w r';
     next_ref := next_ref w;
     trace := trace w; out_file := out_file w |}.

(** A frame with one more column at the end. *)
Definition add_column (df : DataFrame) (name : string) (values : list pyval)
  : DataFrame :=
  {| df_columns := df_columns df ++ [name];
     df_rows := zip_with (fun r v => r ++ [v]) (df_rows df) values |}.

(** The frame [engineer_distance_features] leaves behind: the six columns
    after the old ones, and in every row its six cells after the old ones. *)
Definition enriched_frame (df : DataFrame) (es : list enrichment) : DataFrame :=
  {| df_columns := df_columns df ++ new_columns;
     df_rows := zip_with (fun row e => row ++ enrichment_cells e)
                  (df_rows df) es |}.

(** The four tables are at their references, which are older than every
    object still to be created. *)
Definition tables_in_place (hdbs mrts malls schools : ref)
    (hdbs_df mrts_df malls_df schools_df : DataFrame) (w : world) : Prop :=
  heap w hdbs = hdbs_df /\ heap w mrts = mrts_df /\
  heap w malls = malls_df /\ heap w schools = schools_df /\
  hdbs < next_ref w /\ mrts < next_ref w /\
  malls < next_ref w /\ schools < next_ref w.

(** The lines one batch puts into the output file, and the events of one
    batch: its requests, the append of its lines, the cooldown. *)
Definition batch_lines (batch : DataFrame) (es : list enrichment)
  : list csv_line :=
  map DataLine (df_rows (enriched_frame batch es)).

Definition batch_events (api_token : pyval) (batch : DataFrame)
    (es : list enrichment) : list event :=
  all_requests api_token (points batch) es
    ++ [EvAppend (batch_lines batch es); EvSleep 30].

(** The batches of a frame, in loop order. *)
Definition batches (batch_size : nat) (df : DataFrame) : list DataFrame :=
  map (batch_of batch_size df) (seq 0 (BATCHES batch_size (df_len df))).

(** Stand-ins for the examples: a distance on integer grid points (the sum
    of the coordinate differences), four candidates, two subjects, and a
    routing service that answers for the subjects of latitude 1 only. *)
Definition grid_distance (p q : pyval * pyval) : result float :=
  match p, q with
  | (PInt a, PInt b), (PInt c, PInt d) =>
      Ok (binary_normalize prec emax (Z.abs (a - c) + Z.abs (b - d)) 0 false)
  | _, _ => Raise TypeError
  end.

Definition example_candidates : DataFrame :=
  {| df_columns := ["Address"; "Lat"; "Long"];
     df_rows := [[PStr "A"; PInt 5; PInt 5];
                 [PStr "B"; PInt 1; PInt 0];
                 [PStr "C"; PInt 0; PInt 1];
                 [PStr "D"; PInt 0; PInt 0]] |}.

Definition no_candidates : DataFrame :=
  {| df_columns := ["Address"; "Lat"; "Long"]; df_rows := [] |}.

Definition example_hdbs : DataFrame :=
  {| df_columns := ["Address"; "Lat"; "Long"];
     df_rows := [[PStr "h1"; PInt 1; PInt 1];
                 [PStr "h2"; PInt 4; PInt 5]] |}.

Definition example_service (tr : list event) (r : request) : http_outcome :=
  match req_start r with
  | (PInt 1, _) =>
      Response 200
        (Some (PDict [("route_summary", PDict [("total_distance", PInt 42)])]))
  | _ => TransportFailure Timeout
  end.

(** Reference 0 is the subject frame; every other one is the candidates. *)
Definition example_world : world :=
  {| heap := fun r => match r with O => example_hdbs | _ => example_candidates end;
     next_ref := 4;
     trace := [];
     out_file := [] |}.

(** A subject frame of [n] rows, told apart by their latitude, and the world
    that holds it at reference 0 with an empty output file. *)
Definition subject_frame (n : nat) : DataFrame :=
  {| df_columns := ["Address"; "Lat"; "Long"];
     df_rows := map (fun i => [PStr "blk"; PInt (Z.of_nat i); PInt 0])
                  (seq 0 n) |}.

Definition subjects_world (n : nat) : world :=
  {| heap := fun r => match r with O => subject_frame n | _ => example_candidates end;
     next_ref := 4;
     trace := [];
     out_file := [] |}.

(** A subject frame that already has a column labelled [Nearest_MRT]. *)
Definition tagged_hdbs : DataFrame :=
  {| df_columns := ["Address"; "Lat"; "Long"; "Nearest_MRT"];
     df_rows := [[PStr "h1"; PInt 1; PInt 1; PStr "old"]] |}.

Definition tagged_world : world :=
  {| heap := fun r => match r with O => tagged_hdbs | _ => example_candidates end;
     next_ref := 4;
     trace := [];
     out_file := [] |}.

(** The sizes of the appends of a trace, in order. *)
Fixpoint append_sizes (tr : list event) : list nat :=
  match tr with
  | [] => []
  | EvAppend lines :: tr' => length lines :: append_sizes tr'
  | _ :: tr' => append_sizes tr'
  end.

(** The first [n] cells of a data line. *)
Definition line_cells (n : nat) (l : csv_line) : list pyval :=
  match l with
  | DataLine cells => firstn n cells
  | HeaderLine _ => []
  end.

(** A request for a walking route, sent to the routing URL with
    [api_token] in its [Authorization] header. *)
Definition walk_request_with (api_token : pyval) (r : request) : Prop :=
  req_url r = ROUTE_URL /\ req_routeType r = "walk" /\
  req_authorization r = api_token.

(** What a run may do: send such a request, append data lines, sleep for 30
    seconds; it posts nothing. *)
Definition run_event (api_token : pyval) (ev : event) : Prop :=
  match ev with
  | EvRequest r => walk_request_with api_token r
  | EvAppend lines => count is_header lines = 0
  | EvSleep seconds => seconds = 30%Z
  | EvPost _ _ => False
  end.

(** The lines the appends of a trace put into the output file. *)
Fixpoint appended (tr : list event) : list csv_line :=
  match tr with
  | [] => []
  | EvAppend lines :: tr' => lines ++ appended tr'
  | _ :: tr' => appended tr'
  end.


Definition service_up (email password : pyval) : http_outcome :=
  Response 200 (Some (PDict [("access_token", PStr "token")])).

(** A computation only adds events that satisfy [P] to the trace, and adds
    to the output file exactly the lines of the appends among them. *)
Definition run_frame {A} (P : event -> Prop) (c : M A) : Prop :=
  forall w, exists evs,
    trace (snd (c w)) = trace w ++ evs /\
    Forall P evs /\
    out_file (snd (c w)) = out_file w ++ appended evs.

(** A routing service that answers with a JSON list, and a distance that
    is NaN everywhere. *)
Definition list_service (tr : list event) (r : request) : http_outcome :=
  Response 200 (Some (PList [])).

Definition nan_distance (p q : pyval * pyval) : result float := Ok nan.

(** An event that is a request for a walking route with [api_token]. *)
Definition is_walk_request (api_token : pyval) (ev : event) : Prop :=
  exists r, ev = EvRequest r /\ walk_request_with api_token r.

(** The run can go through: the subject table has its two coordinate
    columns and none of the six labels, the lookups of all its subjects
    return, and the four tables are objects that exist. *)
Definition ready_to_run
    (haversine : pyval * pyval -> pyval * pyval -> result float)
    (hdbs mrts malls schools : ref) (w : world) : Prop :=
  has_column (heap w hdbs) "Lat" /\
  has_column (heap w hdbs) "Long" /\
  (forall p, In p (points (heap w hdbs)) ->
     lookups_succeed haversine (heap w mrts) (heap w malls) (heap w schools) p) /\
  (forall name, In name new_columns -> ~ In name (df_columns (heap w hdbs))) /\
  hdbs < next_ref w /\ mrts < next_ref w /\
  malls < next_ref w /\ schools < next_ref w.

(** The seconds slept in a trace. *)
Fixpoint slept (tr : list event) : Z :=
  match tr with
  | [] => 0
  | EvSleep seconds :: tr' => seconds + slept tr'
  | _ :: tr' => slept tr'
  end.

(** A string without whitespace, and whether a string begins with a
    digit. *)
Fixpoint no_space (s : string) : bool :=
  match s with
  | EmptyString => true
  | String c s' => negb (Cleaning.is_space c) && no_space s'
  end.

Definition starts_with_digit (s : string) : bool :=
  match s with
  | EmptyString => false
  | String c _ => Cleaning.is_digit c
  end.

(** Stand-ins for the examples of [remove_outliers]: a quantile that is
    the requested level itself, and a frame with a price column that holds
    a NaN and a text. *)
Definition level_quantile (column : list pyval) (q : float) : result float :=
  Ok q.

Definition example_prices : DataFrame :=
  {| df_columns := ["Town"; "Price"];
     df_rows := [[PStr "BEDOK"; PFloat f_one];
                 [PStr "BISHAN"; PFloat nan];
                 [PStr "CLEMENTI"; PFloat f_zero];
                 [PStr "GEYLANG"; PInt 1]] |}.

(** * Properties *)

(** ** The IEEE order on floats *)
Module FloatOrder.

Ltac split_compares :=
  repeat match goal with
    | H : context [Z.compare ?a ?b] |- _ => destruct (Z.compare_spec a b)
    | |- context [Z.compare ?a ?b] => destruct (Z.compare_spec a b)
    | H : context [Pos.compare ?a ?b] |- _ => destruct (Pos.compare_spec a b)
    | |- context [Pos.compare ?a ?b] => destruct (Pos.compare_spec a b)
    end.

Ltac by_cases :=
  simpl in *; fold Pos.compare in *; split_compares; subst;
  simpl in *; try discriminate; try reflexivity; try lia.

Lemma SFcompare_none (a b : float) :
  SFcompare a b = None -> is_nan a = true \/ is_nan b = true.
Proof.
  destruct a as [sa|sa| |sa ma ea], b as [sb|sb| |sb mb eb];
    simpl; auto; discriminate.
Qed.

Lemma SFcompare_nan_r (a : float) : SFcompare a nan = None.
Proof. destruct a; reflexivity. Qed.

Lemma SFcompare_refl (a : float) :
  is_nan a = false -> SFcompare a a = Some Eq.
Proof.
  destruct a as [sa|sa| |sa ma ea]; simpl; intros H;
    try discriminate; try reflexivity.
  - destruct sa; reflexivity.
  - destruct sa; rewrite Z.compare_refl; fold Pos.compare;
      rewrite Pos.compare_refl; reflexivity.
Qed.

Lemma SFcompare_antisym (a b : float) (c : comparison) :
  SFcompare a b = Some c -> SFcompare b a = Some (CompOpp c).
Proof.
  destruct a as [sa|sa| |sa ma ea], b as [sb|sb| |sb mb eb];
    try destruct sa; try destruct sb; intros H; by_cases;
    injection H as <-; try reflexivity.
Qed.

Lemma SFcompare_lt_le_trans (a b c : float) (o : comparison) :
  SFcompare a b = Some Lt -> SFcompare b c = Some o -> o <> Gt ->
  SFcompare a c = Some Lt.
Proof.
  destruct a as [sa|sa| |sa ma ea], b as [sb|sb| |sb mb eb],
      c as [sc|sc| |sc mc ec];
    try destruct sa; try destruct sb; try destruct sc;
    intros H1 H2 Ho; by_cases; try (injection H2 as <-; congruence).
Qed.

End FloatOrder.

(** The boolean comparisons, as used by the code. *)
Module FloatBool.
Import FloatOrder.

Lemma leb_not_nan (a b : float) :
  SFleb a b = true -> is_nan a = false /\ is_nan b = false.
Proof.
  destruct a, b; simpl; intros H; try discriminate; auto.
Qed.

Lemma leb_refl (a : float) : is_nan a = false -> SFleb a a = true.
Proof.
  intros H. unfold SFleb. now rewrite (SFcompare_refl a H).
Qed.

Lemma leb_false_ltb (a b : float) :
  is_nan a = false -> is_nan b = false ->
  SFleb a b = false -> SFltb b a = true.
Proof.
  intros Ha Hb. unfold SFleb, SFltb.
  destruct (SFcompare a b) as [c|] eqn:E.
  - rewrite (SFcompare_antisym a b _ E).
    destruct c; simpl; congruence.
  - intros _. destruct (SFcompare_none a b E); congruence.
Qed.

Lemma ltb_leb_trans (a b c : float) :
  SFltb a b = true -> SFleb b c = true -> SFltb a c = true.
Proof.
  unfold SFltb, SFleb.
  destruct (SFcompare a b) as [[]|] eqn:E1; try discriminate.
  destruct (SFcompare b c) as [o|] eqn:E2; try discriminate.
  intros _ H.
  rewrite (SFcompare_lt_le_trans a b c _ E1 E2); [reflexivity|].
  destruct o; congruence.
Qed.

Lemma ltb_leb (a b : float) : SFltb a b = true -> SFleb a b = true.
Proof.
  unfold SFltb, SFleb. destruct (SFcompare a b) as [[]|]; congruence.
Qed.

Lemma leb_not_ltb (a b : float) : SFleb a b = true -> SFltb b a = false.
Proof.
  unfold SFltb, SFleb.
  destruct (SFcompare a b) as [c|] eqn:E; try discriminate.
  rewrite (SFcompare_antisym a b _ E). destruct c; simpl; congruence.
Qed.

Lemma ltb_not_eqb (a b : float) : SFltb a b = true -> SFeqb b a = false.
Proof.
  unfold SFltb, SFeqb.
  destruct (SFcompare a b) as [c|] eqn:E; try discriminate.
  rewrite (SFcompare_antisym a b _ E). destruct c; simpl; congruence.
Qed.


Lemma leb_neq_ltb (a b : float) :
  SFleb a b = true -> SFeqb b a = false -> SFltb a b = true.
Proof.
  unfold SFltb, SFleb, SFeqb.
  destruct (SFcompare a b) as [c|] eqn:E; try discriminate.
  rewrite (SFcompare_antisym a b _ E). destruct c; simpl; congruence.
Qed.

Lemma ltb_nan_r (a : float) : SFltb a nan = false.
Proof. unfold SFltb. now rewrite SFcompare_nan_r. Qed.

Lemma eqb_nan_r (a : float) : SFeqb a nan = false.
Proof. unfold SFeqb. now rewrite SFcompare_nan_r. Qed.

Lemma is_nan_true (a : float) : is_nan a = true -> a = nan.
Proof. destruct a; simpl; intros H; (reflexivity || discriminate). Qed.



End FloatBool.

(** ** [numpy.argmin] returns the first minimum *)

Lemma nth_snoc_old {A} (l : list A) (x d : A) (j : nat) :
  j < length l -> nth j (l ++ [x]) d = nth j l d.
Proof. intros H. now rewrite app_nth1. Qed.

Lemma nth_snoc_new {A} (l : list A) (x d : A) :
  nth (length l) (l ++ [x]) d = x.
Proof. rewrite app_nth2, Nat.sub_diag; [reflexivity | lia]. Qed.

Lemma argmin_scan_first_min (l pre : list float) (mp : float) (m : nat) :
  m < length pre ->
  nth m pre nan = mp ->
  is_nan mp = false ->
  (forall j, j < length pre -> SFleb mp (nth j pre nan) = true) ->
  (forall j, j < m -> SFltb mp (nth j pre nan) = true) ->
  first_min (pre ++ l) (argmin_scan mp m (length pre) l).
Proof.
  revert pre mp m.
  induction l as [|x l IH]; intros pre mp m Hm Hmp Hnan Hle Hlt.
  - simpl. rewrite app_nil_r. unfold first_min. rewrite Hmp.
    repeat split; auto.
    + intros j Hj. apply FloatBool.leb_not_ltb. auto.
    + intros j Hj. apply FloatBool.ltb_not_eqb. auto.
  - assert (Hlen : length (pre ++ [x]) = S (length pre))
      by (rewrite length_app; simpl; lia).
    assert (Happ : pre ++ x :: l = (pre ++ [x]) ++ l)
      by (rewrite <- app_assoc; reflexivity).
    simpl. destruct (SFleb mp x) eqn:Ele; simpl.
    + rewrite Happ, <- Hlen. apply IH; auto.
      * rewrite Hlen. lia.
      * rewrite nth_snoc_old; auto.
      * intros j Hj. rewrite Hlen in Hj.
        destruct (Nat.eq_dec j (length pre)) as [->|Hne].
        -- now rewrite nth_snoc_new.
        -- rewrite nth_snoc_old by lia. apply Hle. lia.
      * intros j Hj. rewrite nth_snoc_old by lia. auto.
    + destruct (is_nan x) eqn:Ex.
      * apply FloatBool.is_nan_true in Ex. subst x.
        assert (Hk : nth (length pre) (pre ++ nan :: l) nan = nan)
          by (rewrite app_nth2, Nat.sub_diag; [reflexivity | lia]).
        unfold first_min. rewrite Hk. repeat split.
        -- rewrite length_app. simpl. lia.
        -- intros. apply FloatBool.ltb_nan_r.
        -- intros. apply FloatBool.eqb_nan_r.
        -- intros Hall j Hj.
           specialize (Hall (length pre)). rewrite Hk in Hall.
           simpl in Hall. rewrite length_app in Hall. simpl in Hall.
           assert (true = false) by (apply Hall; lia). discriminate.
      * assert (Hx : SFltb x mp = true)
          by (apply FloatBool.leb_false_ltb; auto).
        rewrite Happ, <- Hlen. apply IH; auto.
        -- rewrite Hlen. lia.
        -- apply nth_snoc_new.
        -- intros j Hj. rewrite Hlen in Hj.
           destruct (Nat.eq_dec j (length pre)) as [->|Hne].
           ++ rewrite nth_snoc_new. now apply FloatBool.leb_refl.
           ++ rewrite nth_snoc_old by lia. apply FloatBool.ltb_leb.
              apply FloatBool.ltb_leb_trans with mp; auto. apply Hle. lia.
        -- intros j Hj. rewrite nth_snoc_old by lia.
           apply FloatBool.ltb_leb_trans with mp; auto.
Qed.

Lemma np_argmin_first_min (a : list float) :
  a <> [] -> exists k, np_argmin a = Ok k /\ first_min a k.
Proof.
  destruct a as [|x l]; [congruence|]. intros _. simpl.
  destruct (is_nan x) eqn:Ex.
  - exists 0. split; [reflexivity|].
    apply FloatBool.is_nan_true in Ex. subst x.
    unfold first_min. simpl. repeat split.
    + lia.
    + intros. apply FloatBool.ltb_nan_r.
    + intros. lia.
    + intros Hall j Hj. specialize (Hall 0). simpl in Hall.
      assert (true = false) by (apply Hall; lia). discriminate.
  - exists (argmin_scan x 0 1 l). split; [reflexivity|].
    apply (argmin_scan_first_min l [x] x 0); simpl; auto.
    + intros j Hj. assert (j = 0) by lia. subst. now apply FloatBool.leb_refl.
    + intros j Hj. lia.
Qed.

(** ** Results and DataFrame access *)

Lemma mapM_map_total {A B C} (f : B -> result C) (h : A -> B) (g : A -> C)
    (l : list A) :
  (forall x, In x l -> f (h x) = Ok (g x)) ->
  Res.mapM f (map h l) = Ok (map g l).
Proof.
  induction l as [|x l IH]; intros H; simpl; [reflexivity|].
  rewrite (H x) by (left; reflexivity). simpl.
  rewrite IH by (intros y Hy; apply H; right; exact Hy).
  reflexivity.
Qed.

Lemma index_of_In (name : string) (cols : list string) :
  In name cols -> exists j, index_of name cols = Some j.
Proof.
  induction cols as [|c cols IH]; simpl; [tauto|].
  intros [->|H].
  - rewrite String.eqb_refl. eauto.
  - destruct (String.eqb c name); [eauto|].
    destruct (IH H) as [j ->]. simpl. eauto.
Qed.

Lemma index_of_lt (name : string) (cols : list string) (j : nat) :
  index_of name cols = Some j -> j < length cols /\ nth_error cols j = Some name.
Proof.
  revert j. induction cols as [|c cols IH]; simpl; intros j; [discriminate|].
  destruct (String.eqb c name) eqn:E.
  - apply String.eqb_eq in E. intros [= <-]. subst. simpl. split; [lia|auto].
  - destruct (index_of name cols) as [j'|]; simpl; [|discriminate].
    intros [= <-]. destruct (IH j' eq_refl). simpl. split; [lia|auto].
Qed.

Lemma df_getitem_cells (df : DataFrame) (name : string) :
  has_column df name ->
  df_getitem df name = Ok (map (fun row => cell df row name) (df_rows df)).
Proof.
  intros H. unfold df_getitem, cell.
  destruct (index_of_In _ _ H) as [j ->]. reflexivity.
Qed.

Lemma series_getitem_cell (df : DataFrame) (row : list pyval) (name : string) :
  has_column df name ->
  series_getitem {| s_index := df_columns df; s_values := row |} name
  = Ok (cell df row name).
Proof.
  intros H. unfold series_getitem, cell. simpl.
  destruct (index_of_In _ _ H) as [j ->]. reflexivity.
Qed.

Lemma combine_map {A B C} (f : A -> B) (g : A -> C) (l : list A) :
  combine (map f l) (map g l) = map (fun x => (f x, g x)) l.
Proof. induction l; simpl; congruence. Qed.

Lemma nth_map_nth_error {A B} (f : A -> B) (l : list A) (k : nat) (x : A) (d : B) :
  nth_error l k = Some x -> nth k (map f l) d = f x.
Proof.
  intros H. apply nth_error_nth. rewrite nth_error_map, H. reflexivity.
Qed.

(** [first_min] on the distances of the rows, read on the rows. *)
Lemma first_min_rows {A} (dist : A -> float) (rows : list A) (k : nat) (row : A) :
  first_min (map dist rows) k ->
  nth_error rows k = Some row ->
  (forall row', In row' rows -> SFltb (dist row') (dist row) = false) /\
  (forall j row', j < k -> nth_error rows j = Some row' ->
     SFeqb (dist row') (dist row) = false) /\
  ((forall row', In row' rows -> is_nan (dist row') = false) ->
   forall row', In row' rows -> SFleb (dist row) (dist row') = true).
Proof.
  intros [Hk [Hmin [Hfirst Hleast]]] Hrow.
  rewrite length_map in *.
  rewrite (nth_map_nth_error dist _ _ _ nan Hrow) in *.
  assert (Hnth : forall row', In row' rows ->
            exists j, j < length rows /\ nth j (map dist rows) nan = dist row').
  { intros row' Hin. destruct (In_nth_error _ _ Hin) as [j Hj].
    exists j. split.
    - apply nth_error_Some. congruence.
    - apply (nth_map_nth_error dist _ _ _ nan Hj). }
  repeat split.
  - intros row' Hin. destruct (Hnth row' Hin) as [j [Hj <-]]. auto.
  - intros j row' Hj Hrow'.
    rewrite <- (nth_map_nth_error dist _ _ _ nan Hrow'). auto.
  - intros Hall row' Hin. destruct (Hnth row' Hin) as [j [Hj <-]].
    apply Hleast; auto.
    intros i Hi.
    destruct (nth_error rows i) as [r|] eqn:Er.
    + rewrite (nth_map_nth_error dist _ _ _ nan Er).
      apply Hall. eapply nth_error_In; eauto.
    + apply nth_error_None in Er. lia.
Qed.

(** ** [nearest_loc] *)
Section NearestLoc.

Variable haversine : pyval * pyval -> pyval * pyval -> result float.

(** What [nearest_loc] computes on a frame with the three columns and at
    least one row, when [haversine] returns on every candidate. *)
Lemma nearest_loc_eval (hdb_lat hdb_lon : pyval) (loc_df : DataFrame) :
  has_column loc_df "Address" ->
  has_column loc_df "Lat" ->
  has_column loc_df "Long" ->
  distances_defined haversine (hdb_lat, hdb_lon) loc_df ->
  df_rows loc_df <> [] ->
  let dist := distance_to haversine (hdb_lat, hdb_lon) loc_df in
  exists k row,
    nth_error (df_rows loc_df) k = Some row /\
    first_min (map dist (df_rows loc_df)) k /\
    nearest_loc haversine hdb_lat hdb_lon loc_df
    = Ok (cell loc_df row "Address", cell loc_df row "Lat",
          cell loc_df row "Long",
          if SFeqb (dist row) f_zero then None
          else Some (SFleb (dist row) f_one)).
Proof.
  intros Ha Hlat Hlong Hdef Hne dist.
  unfold nearest_loc.
  rewrite (df_getitem_cells loc_df "Lat" Hlat),
    (df_getitem_cells loc_df "Long" Hlong).
  cbn [Res.bind]. rewrite combine_map.
  rewrite (mapM_map_total _ _ dist).
  2:{ intros row Hrow. destruct (Hdef row Hrow) as [d Hd].
      unfold dist, distance_to. unfold location in *. rewrite Hd. reflexivity. }
  cbn [Res.bind].
  destruct (np_argmin_first_min (map dist (df_rows loc_df)))
    as [k [Hk Hmin]].
  { destruct (df_rows loc_df); [congruence | discriminate]. }
  rewrite Hk. cbn [Res.bind].
  assert (Hlt : k < length (df_rows loc_df))
    by (destruct Hmin as [Hlt _]; now rewrite length_map in Hlt).
  destruct (nth_error (df_rows loc_df) k) as [row|] eqn:Erow.
  2:{ apply nth_error_None in Erow. lia. }
  exists k, row. split; [exact Erow|]. split; [exact Hmin|].
  unfold df_iloc. rewrite Erow. cbn [Res.bind].
  rewrite !series_getitem_cell by assumption. cbn [Res.bind].
  rewrite (nth_map_nth_error dist _ _ _ nan Erow). reflexivity.
Qed.

(** C1. On a candidate frame with at least one row, [nearest_loc] returns
    the address and coordinates of a row of the frame; no row of the frame is
    strictly nearer to the query point than that row; no earlier row is at
    the same distance, so among the rows at the least distance the first in
    frame order is returned. When no distance is NaN, the distance of the
    returned row is at most that of every row. *)
Theorem nearest_loc_first_nearest (hdb_lat hdb_lon : pyval) (loc_df : DataFrame) :
  has_column loc_df "Address" ->
  has_column loc_df "Lat" ->
  has_column loc_df "Long" ->
  distances_defined haversine (hdb_lat, hdb_lon) loc_df ->
  df_rows loc_df <> [] ->
  let dist := distance_to haversine (hdb_lat, hdb_lon) loc_df in
  exists k row within,
    nearest_loc haversine hdb_lat hdb_lon loc_df
    = Ok (cell loc_df row "Address", cell loc_df row "Lat",
          cell loc_df row "Long", within) /\
    nth_error (df_rows loc_df) k = Some row /\
    (forall row', In row' (df_rows loc_df) ->
       SFltb (dist row') (dist row) = false) /\
    (forall j row', j < k -> nth_error (df_rows loc_df) j = Some row' ->
       SFeqb (dist row') (dist row) = false) /\
    ((forall row', In row' (df_rows loc_df) -> is_nan (dist row') = false) ->
     forall row', In row' (df_rows loc_df) ->
       SFleb (dist row) (dist row') = true).
Proof.
  intros Ha Hlat Hlong Hdef Hne dist.
  destruct (nearest_loc_eval hdb_lat hdb_lon loc_df Ha Hlat Hlong Hdef Hne)
    as [k [row [Hrow [Hmin Heq]]]].
  fold dist in Hmin, Heq.
  exists k, row. eexists. split; [exact Heq|]. split; [exact Hrow|].
  exact (first_min_rows dist _ k row Hmin Hrow).
Qed.


(** C7. On a candidate frame without rows [nearest_loc] returns no result:
    the call raises, and the exception is the [ValueError] of
    [numpy.argmin] on an empty array when the frame has its coordinate
    columns. *)
Theorem nearest_loc_empty_raises (hdb_lat hdb_lon : pyval) (loc_df : DataFrame) :
  df_rows loc_df = [] ->
  (exists e, nearest_loc haversine hdb_lat hdb_lon loc_df = Raise e) /\
  (has_column loc_df "Lat" -> has_column loc_df "Long" ->
   nearest_loc haversine hdb_lat hdb_lon loc_df = Raise ValueError).
Proof.
  intros Hrows. split.
  - unfold nearest_loc, df_getitem. rewrite Hrows.
    destruct (index_of "Lat" (df_columns loc_df)); simpl; [|eauto].
    destruct (index_of "Long" (df_columns loc_df)); simpl; eauto.
  - intros Hlat Hlong. unfold nearest_loc.
    rewrite (df_getitem_cells loc_df "Lat" Hlat),
      (df_getitem_cells loc_df "Long" Hlong).
    rewrite Hrows. reflexivity.
Qed.

End NearestLoc.

(** Witness of C1: the subject (1, 1) among the four example candidates. *)
Lemma nearest_loc_first_nearest_witness :
  let dist := distance_to grid_distance (PInt 1, PInt 1) example_candidates in
  exists k row within,
    nearest_loc grid_distance (PInt 1) (PInt 1) example_candidates
    = Ok (cell example_candidates row "Address",
          cell example_candidates row "Lat",
          cell example_candidates row "Long", within) /\
    nth_error (df_rows example_candidates) k = Some row /\
    (forall row', In row' (df_rows example_candidates) ->
       SFltb (dist row') (dist row) = false) /\
    (forall j row', j < k -> nth_error (df_rows example_candidates) j = Some row' ->
       SFeqb (dist row') (dist row) = false) /\
    ((forall row', In row' (df_rows example_candidates) ->
        is_nan (dist row') = false) ->
     forall row', In row' (df_rows example_candidates) ->
       SFleb (dist row) (dist row') = true).
Proof.
  apply (nearest_loc_first_nearest grid_distance (PInt 1) (PInt 1)
           example_candidates).
  - unfold has_column. simpl. tauto.
  - unfold has_column. simpl. tauto.
  - unfold has_column. simpl. tauto.
  - intros row Hin. simpl in Hin.
    repeat (destruct Hin as [<-|Hin]; [eexists; reflexivity|]).
    contradiction.
  - discriminate.
Defined.



(** Witness of C7: a candidate frame with its columns and no row. *)
Lemma nearest_loc_empty_raises_witness :
  (exists e, nearest_loc grid_distance (PInt 1) (PInt 1) no_candidates = Raise e) /\
  (has_column no_candidates "Lat" -> has_column no_candidates "Long" ->
   nearest_loc grid_distance (PInt 1) (PInt 1) no_candidates = Raise ValueError).
Proof.
  apply (nearest_loc_empty_raises grid_distance (PInt 1) (PInt 1) no_candidates).
  reflexivity.
Defined.

(** ** [get_distance] *)
Section GetDistance.

Variable routing_service : list event -> request -> http_outcome.

(** One request is sent, and whatever comes back the call returns. *)
Lemma get_distance_eval (hdb_lat hdb_long loc_lat loc_long api_token : pyval)
    (w : world) :
  let req := route_request hdb_lat hdb_long loc_lat loc_long api_token in
  get_distance routing_service hdb_lat hdb_long loc_lat loc_long api_token w
  = (Ok (distance_of (routing_service (trace w) req)), logged [EvRequest req] w).
Proof.
  intros req.
  unfold get_distance, St.try_except, St.bind, requests_get. fold req.
  destruct (routing_service (trace w) req) as [e|status body]; [reflexivity|].
  unfold distance_of, St.lift, raise_for_status. simpl fst. simpl snd.
  destruct ((400 <=? status) && (status <? 600))%Z; [reflexivity|].
  destruct body as [body|]; [|reflexivity]. simpl.
  destruct body; try reflexivity. simpl.
  destruct (assoc_get "route_summary" d) as [rs|]; [|reflexivity].
  destruct rs; reflexivity.
Qed.

(** C6. [get_distance] never raises: for every pair of points, token and
    world it returns a value, after sending its one request. The value is
    null when the transport fails, when the status is 4xx or 5xx, when the
    body is not JSON, and when [route_summary] or its [total_distance] is
    missing. *)
Theorem get_distance_never_raises
    (hdb_lat hdb_long loc_lat loc_long api_token : pyval) (w : world) :
  let req := route_request hdb_lat hdb_long loc_lat loc_long api_token in
  exists v,
    get_distance routing_service hdb_lat hdb_long loc_lat loc_long api_token w
    = (Ok v, logged [EvRequest req] w) /\
    match routing_service (trace w) req with
    | TransportFailure _ => v = PNone
    | Response status body =>
        ((400 <= status < 600)%Z -> v = PNone) /\
        (body = None -> v = PNone) /\
        (forall d, body = Some (PDict d) ->
           assoc_get "route_summary" d = None -> v = PNone) /\
        (forall d rs, body = Some (PDict d) ->
           assoc_get "route_summary" d = Some (PDict rs) ->
           assoc_get "total_distance" rs = None -> v = PNone)
    end.
Proof.
  intros req. eexists. split; [apply get_distance_eval|]. fold req.
  destruct (routing_service (trace w) req) as [e|status body]; [reflexivity|].
  unfold distance_of.
  destruct ((400 <=? status) && (status <? 600))%Z eqn:Es.
  - repeat split; reflexivity.
  - split; [|split; [|split]].
    + intros [H1 H2].
      apply Z.leb_le in H1. apply Z.ltb_lt in H2.
      rewrite H1, H2 in Es. discriminate.
    + intros ->. reflexivity.
    + intros d -> ->. reflexivity.
    + intros d rs -> -> ->. reflexivity.
Qed.

End GetDistance.

(** ** The enrichment loop *)

Lemma logged_logged (a b : list event) (w : world) :
  logged b (logged a w) = logged (a ++ b) w.
Proof. unfold logged. simpl. now rewrite app_assoc. Qed.

Lemma logged_nil (w : world) : logged [] w = w.
Proof. destruct w. unfold logged. simpl. now rewrite app_nil_r. Qed.

Section EnrichLoop.

Variable haversine : pyval * pyval -> pyval * pyval -> result float.
Variable routing_service : list event -> request -> http_outcome.
Variables mrts malls schools : ref.
Variable api_token : pyval.

(** One pass of the loop body, when the three lookups return. *)
Lemma enrich_step_eval (acc : features) (hdb_lat hdb_long : pyval) (w : world) :
  lookups_succeed haversine (heap w mrts) (heap w malls) (heap w schools)
    (hdb_lat, hdb_long) ->
  exists e,
    enriches haversine routing_service (heap w mrts) (heap w malls)
      (heap w schools) api_token (trace w) (hdb_lat, hdb_long) e /\
    enrich_step haversine routing_service mrts malls schools api_token
      acc hdb_lat hdb_long w
    = (Ok (extend acc e),
       logged (subject_requests api_token (hdb_lat, hdb_long) e) w).
Proof.
  intros [[[[[mrt mrt_lat] mrt_long] n1] H1]
          [[[[[mall mall_lat] mall_long] n2] H2]
           [[[[school s_lat] s_long] school_1km] H3]]].
  simpl fst in *. simpl snd in *.
  set (req1 := route_request hdb_lat hdb_long mrt_lat mrt_long api_token).
  set (req2 := route_request hdb_lat hdb_long mall_lat mall_long api_token).
  exists {| e_mrt := mrt; e_mrt_at := (mrt_lat, mrt_long);
            e_mrt_dist := distance_of (routing_service (trace w) req1);
            e_mall := mall; e_mall_at := (mall_lat, mall_long);
            e_mall_dist :=
              distance_of (routing_service (trace w ++ [EvRequest req1]) req2);
            e_school := school; e_school_1km := school_1km |}.
  split.
  - unfold enriches. simpl. repeat split; eauto.
  - unfold enrich_step, St.bind, St.deref, St.lift, St.ret.
    rewrite H1, get_distance_eval. simpl heap. rewrite H2, get_distance_eval.
    simpl heap. rewrite H3. rewrite logged_logged. reflexivity.
Qed.

Lemma enriched_length (mrts_df malls_df schools_df : DataFrame)
    (ps : list (pyval * pyval)) (es : list enrichment) (tr : list event) :
  enriched haversine routing_service mrts_df malls_df schools_df api_token
    tr ps es ->
  length es = length ps.
Proof.
  revert es tr. induction ps as [|p ps IH]; intros [|e es] tr; simpl;
    try tauto.
  intros [_ H]. f_equal. eapply IH; eauto.
Qed.

(** The loop over the subjects at [ps], when all their lookups return. *)
Lemma enrich_loop_eval (ps : list (pyval * pyval)) (acc : features) (w : world) :
  (forall p, In p ps ->
     lookups_succeed haversine (heap w mrts) (heap w malls) (heap w schools) p) ->
  exists es,
    enriched haversine routing_service (heap w mrts) (heap w malls)
      (heap w schools) api_token (trace w) ps es /\
    enrich_loop haversine routing_service mrts malls schools api_token
      acc ps w
    = (Ok (fold_left extend es acc), logged (all_requests api_token ps es) w).
Proof.
  revert acc w. induction ps as [|[hdb_lat hdb_long] ps IH]; intros acc w Hall.
  - exists []. split; [exact I|]. simpl. unfold St.ret, all_requests. simpl.
    now rewrite logged_nil.
  - destruct (enrich_step_eval acc hdb_lat hdb_long w) as [e [He Hstep]].
    { apply Hall. left. reflexivity. }
    destruct (IH (extend acc e)
                (logged (subject_requests api_token (hdb_lat, hdb_long) e) w))
      as [es [Hes Hloop]].
    { intros p Hp. simpl heap. apply Hall. right. exact Hp. }
    exists (e :: es). split.
    + simpl. split; [exact He | exact Hes].
    + simpl. unfold St.bind. rewrite Hstep, Hloop, logged_logged.
      reflexivity.
Qed.

End EnrichLoop.

(** ** Column assignment *)

Lemma index_of_not_In (name : string) (cols : list string) :
  ~ In name cols -> index_of name cols = None.
Proof.
  induction cols as [|c cols IH]; simpl; [reflexivity|].
  intros H. destruct (String.eqb c name) eqn:E.
  - apply String.eqb_eq in E. tauto.
  - rewrite IH by tauto. reflexivity.
Qed.

Lemma assign_column_eval (r : ref) (name : string) (values : list pyval)
    (w : world) (df : DataFrame) :
  heap w r = df ->
  ~ In name (df_columns df) ->
  length values = length (df_rows df) ->
  assign_column r name values w
  = (Ok tt, updated r (add_column df name values) w).
Proof.
  intros <- Hnew Hlen.
  unfold assign_column, St.bind, St.deref, St.lift, St.store, df_setitem, df_len.
  rewrite Hlen, Nat.eqb_refl. simpl.
  rewrite (index_of_not_In _ _ Hnew). reflexivity.
Qed.

Lemma heap_updated (r : ref) (df : DataFrame) (w : world) :
  heap (updated r df w) r = df.
Proof. simpl. now rewrite Nat.eqb_refl. Qed.

Lemma heap_updated_other (r r' : ref) (df : DataFrame) (w : world) :
  r' <> r -> heap (updated r df w) r' = heap w r'.
Proof.
  intros H. simpl. destruct (r' =? r) eqn:E; [|reflexivity].
  apply Nat.eqb_eq in E. contradiction.
Qed.

Lemma zip_with_map_r {A B C D} (f : A -> C -> D) (g : B -> C)
    (l1 : list A) (l2 : list B) :
  zip_with f l1 (map g l2) = zip_with (fun a b => f a (g b)) l1 l2.
Proof.
  revert l2. induction l1 as [|a l1 IH]; intros [|b l2]; simpl; auto.
  now rewrite IH.
Qed.

Lemma zip_with_zip_with_l {A B C D} (f : A -> B -> C) (g : C -> B -> D)
    (l1 : list A) (l2 : list B) :
  zip_with g (zip_with f l1 l2) l2 = zip_with (fun a b => g (f a b) b) l1 l2.
Proof.
  revert l2. induction l1 as [|a l1 IH]; intros [|b l2]; simpl; auto.
  now rewrite IH.
Qed.

Lemma zip_with_ext {A B C} (f g : A -> B -> C) (l1 : list A) (l2 : list B) :
  (forall a b, f a b = g a b) -> zip_with f l1 l2 = zip_with g l1 l2.
Proof.
  intros H. revert l2. induction l1 as [|a l1 IH]; intros [|b l2]; simpl; auto.
  now rewrite H, IH.
Qed.

Lemma zip_with_length {A B C} (f : A -> B -> C) (l1 : list A) (l2 : list B) :
  length l2 = length l1 -> length (zip_with f l1 l2) = length l1.
Proof.
  revert l2. induction l1 as [|a l1 IH]; intros [|b l2]; simpl;
    try discriminate; auto.
Qed.

Lemma features_fold (es : list enrichment) (acc : features) :
  let acc' := fold_left extend es acc in
  nearest_mrt acc' = nearest_mrt acc ++ map e_mrt es /\
  mrt_distances acc' = mrt_distances acc ++ map e_mrt_dist es /\
  nearest_mall acc' = nearest_mall acc ++ map e_mall es /\
  mall_distances acc' = mall_distances acc ++ map e_mall_dist es /\
  nearest_school acc' = nearest_school acc ++ map e_school es /\
  within_1km acc' = within_1km acc
                    ++ map (fun e => within_cell (e_school_1km e)) es.
Proof.
  revert acc. induction es as [|e es IH]; intros acc; simpl.
  - now rewrite !app_nil_r.
  - destruct (IH (extend acc e)) as [H1 [H2 [H3 [H4 [H5 H6]]]]].
    rewrite H1, H2, H3, H4, H5, H6. simpl.
    now rewrite <- !app_assoc.
Qed.

(** ** [engineer_distance_features] *)
Section Engineer.

Variable haversine : pyval * pyval -> pyval * pyval -> result float.
Variable routing_service : list event -> request -> http_outcome.

(** The six assignments, one after the other, on a frame that has none of
    the six labels. *)
Lemma add_six_columns (df : DataFrame) (es : list enrichment) :
  length es = length (df_rows df) ->
  add_column
    (add_column
       (add_column
          (add_column
             (add_column
                (add_column df "Nearest_MRT" (map e_mrt es))
                "Distance_MRT" (map e_mrt_dist es))
             "Nearest_Mall" (map e_mall es))
          "Distance_Mall" (map e_mall_dist es))
       "Nearest_Pri_Sch" (map e_school es))
    "Within_1km_of_Pri" (map (fun e => within_cell (e_school_1km e)) es)
  = enriched_frame df es.
Proof.
  intros Hlen. unfold add_column, enriched_frame. simpl. f_equal.
  - now rewrite <- !app_assoc.
  - rewrite !zip_with_map_r, !zip_with_zip_with_l.
    apply zip_with_ext. intros row e. unfold enrichment_cells.
    now rewrite <- !app_assoc.
Qed.

Lemma engineer_eval (hdbs mrts malls schools : ref) (api_token : pyval)
    (w : world) :
  let df := heap w hdbs in
  has_column df "Lat" ->
  has_column df "Long" ->
  (forall p, In p (points df) ->
     lookups_succeed haversine (heap w mrts) (heap w malls) (heap w schools) p) ->
  (forall name, In name new_columns -> ~ In name (df_columns df)) ->
  exists es w',
    enriched haversine routing_service (heap w mrts) (heap w malls)
      (heap w schools) api_token (trace w) (points df) es /\
    engineer_distance_features haversine routing_service
      hdbs mrts malls schools api_token w = (Ok hdbs, w') /\
    heap w' hdbs = enriched_frame df es /\
    (forall r, r <> hdbs -> heap w' r = heap w r) /\
    next_ref w' = next_ref w /\
    trace w' = trace w ++ all_requests api_token (points df) es /\
    out_file w' = out_file w.
Proof.
  intros df Hlat Hlong Hlook Hnew.
  destruct (enrich_loop_eval haversine routing_service mrts malls schools
              api_token (points df) no_features w Hlook) as [es [Hes Hloop]].
  assert (Hlen : length es = length (df_rows df)).
  { rewrite (enriched_length _ _ _ _ _ _ _ _ _ Hes).
    unfold points. apply length_map. }
  destruct (features_fold es no_features) as [F1 [F2 [F3 [F4 [F5 F6]]]]].
  simpl in F1, F2, F3, F4, F5, F6.
  set (w0 := logged (all_requests api_token (points df) es) w) in *.
  set (d1 := add_column df "Nearest_MRT" (map e_mrt es)).
  set (d2 := add_column d1 "Distance_MRT" (map e_mrt_dist es)).
  set (d3 := add_column d2 "Nearest_Mall" (map e_mall es)).
  set (d4 := add_column d3 "Distance_Mall" (map e_mall_dist es)).
  set (d5 := add_column d4 "Nearest_Pri_Sch" (map e_school es)).
  set (d6 := add_column d5 "Within_1km_of_Pri"
               (map (fun e => within_cell (e_school_1km e)) es)).
  set (w1 := updated hdbs d1 w0).
  set (w2 := updated hdbs d2 w1).
  set (w3 := updated hdbs d3 w2).
  set (w4 := updated hdbs d4 w3).
  set (w5 := updated hdbs d5 w4).
  set (w6 := updated hdbs d6 w5).
  assert (Hfresh : forall name, In name new_columns ->
            forall seen, (forall n, In n seen -> n <> name) ->
              ~ In name (df_columns df ++ seen)).
  { intros name Hin seen Hseen Hc. apply in_app_iff in Hc.
    destruct Hc as [Hc|Hc]; [exact (Hnew name Hin Hc) | exact (Hseen name Hc eq_refl)]. }
  assert (A1 : assign_column hdbs "Nearest_MRT" (map e_mrt es) w0 = (Ok tt, w1)).
  { apply assign_column_eval.
    - reflexivity.
    - apply Hnew. simpl. tauto.
    - now rewrite length_map. }
  assert (L : forall d name vs, length (df_rows d) = length (df_rows df) ->
            length vs = length es ->
            length (df_rows (add_column d name vs)) = length (df_rows df)).
  { intros d name vs Hd Hvs. simpl. rewrite zip_with_length; congruence. }
  assert (L1 : length (df_rows d1) = length (df_rows df))
    by (apply L; [reflexivity | apply length_map]).
  assert (L2 : length (df_rows d2) = length (df_rows df))
    by (apply L; [exact L1 | apply length_map]).
  assert (L3 : length (df_rows d3) = length (df_rows df))
    by (apply L; [exact L2 | apply length_map]).
  assert (L4 : length (df_rows d4) = length (df_rows df))
    by (apply L; [exact L3 | apply length_map]).
  assert (L5 : length (df_rows d5) = length (df_rows df))
    by (apply L; [exact L4 | apply length_map]).
  assert (A2 : assign_column hdbs "Distance_MRT" (map e_mrt_dist es) w1
               = (Ok tt, w2)).
  { apply assign_column_eval.
    - apply heap_updated.
    - unfold d5, d4, d3, d2, d1. simpl. rewrite <- ?app_assoc.
      apply (Hfresh "Distance_MRT"); [simpl; tauto|]. simpl.
      intros n Hn. repeat (destruct Hn as [<-|Hn]; [discriminate|]).
      contradiction.
    - rewrite length_map. congruence. }
  assert (A3 : assign_column hdbs "Nearest_Mall" (map e_mall es) w2
               = (Ok tt, w3)).
  { apply assign_column_eval.
    - apply heap_updated.
    - unfold d5, d4, d3, d2, d1. simpl. rewrite <- ?app_assoc.
      apply (Hfresh "Nearest_Mall"); [simpl; tauto|]. simpl.
      intros n Hn. repeat (destruct Hn as [<-|Hn]; [discriminate|]).
      contradiction.
    - rewrite length_map. congruence. }
  assert (A4 : assign_column hdbs "Distance_Mall" (map e_mall_dist es) w3
               = (Ok tt, w4)).
  { apply assign_column_eval.
    - apply heap_updated.
    - unfold d5, d4, d3, d2, d1. simpl. rewrite <- ?app_assoc.
      apply (Hfresh "Distance_Mall"); [simpl; tauto|]. simpl.
      intros n Hn. repeat (destruct Hn as [<-|Hn]; [discriminate|]).
      contradiction.
    - rewrite length_map. congruence. }
  assert (A5 : assign_column hdbs "Nearest_Pri_Sch" (map e_school es) w4
               = (Ok tt, w5)).
  { apply assign_column_eval.
    - apply heap_updated.
    - unfold d5, d4, d3, d2, d1. simpl. rewrite <- ?app_assoc.
      apply (Hfresh "Nearest_Pri_Sch"); [simpl; tauto|]. simpl.
      intros n Hn. repeat (destruct Hn as [<-|Hn]; [discriminate|]).
      contradiction.
    - rewrite length_map. congruence. }
  assert (A6 : assign_column hdbs "Within_1km_of_Pri" 
                 (map (fun e => within_cell (e_school_1km e)) es) w5
               = (Ok tt, w6)).
  { apply assign_column_eval.
    - apply heap_updated.
    - unfold d5, d4, d3, d2, d1. simpl. rewrite <- ?app_assoc.
      apply (Hfresh "Within_1km_of_Pri"); [simpl; tauto|]. simpl.
      intros n Hn. repeat (destruct Hn as [<-|Hn]; [discriminate|]).
      contradiction.
    - rewrite length_map. congruence. }
  exists es, w6. split; [exact Hes|]. split.
  - unfold engineer_distance_features, St.bind, St.deref, St.lift, St.ret.
    fold df.
    rewrite (df_getitem_cells df "Lat" Hlat), (df_getitem_cells df "Long" Hlong).
    rewrite combine_map. change (map _ (df_rows df)) with (points df).
    rewrite Hloop, F1, F2, F3, F4, F5, F6.
    rewrite A1, A2, A3, A4, A5, A6. reflexivity.
  - split; [|split; [|split; [|split]]].
    + unfold w6. rewrite heap_updated. unfold d6, d5, d4, d3, d2, d1.
      now apply add_six_columns.
    + intros r Hr. unfold w6, w5, w4, w3, w2, w1.
      rewrite !heap_updated_other by exact Hr. reflexivity.
    + reflexivity.
    + reflexivity.
    + reflexivity.
Qed.

End Engineer.

(** ** The per-subject requests and the enriched frame *)

Lemma all_requests_count (api_token : pyval) (ps : list (pyval * pyval))
    (es : list enrichment) :
  length es = length ps ->
  count is_request (all_requests api_token ps es) = 2 * length ps /\
  count is_sleep (all_requests api_token ps es) = 0.
Proof.
  unfold count, all_requests.
  revert es. induction ps as [|p ps IH]; intros [|e es]; simpl;
    try discriminate; auto.
  intros [= H]. destruct (IH es H) as [H1 H2]. split; [lia | exact H2].
Qed.

Lemma index_of_app_l (name : string) (cols more : list string) :
  In name cols -> index_of name (cols ++ more) = index_of name cols.
Proof.
  induction cols as [|c cols IH]; simpl; [tauto|].
  intros H. destruct (String.eqb c name) eqn:E; [reflexivity|].
  rewrite IH; [reflexivity|].
  destruct H as [H|H]; [|exact H].
  subst. rewrite String.eqb_refl in E. discriminate.
Qed.

Lemma zip_with_nth_error {A B C} (f : A -> B -> C) (l1 : list A) (l2 : list B)
    (i : nat) (a : A) :
  length l2 = length l1 ->
  nth_error l1 i = Some a ->
  exists b, nth_error l2 i = Some b /\
            nth_error (zip_with f l1 l2) i = Some (f a b).
Proof.
  revert l2 i. induction l1 as [|x l1 IH]; intros [|y l2] [|i]; simpl;
    try discriminate.
  - intros _ [= ->]. eauto.
  - intros [= H] Ha. eauto.
Qed.

Lemma map_zip_with_prefix {A} (g : list pyval -> pyval) (h : A -> list pyval)
    (rows : list (list pyval)) (es : list A) :
  length es = length rows ->
  (forall row e, In row rows -> g (row ++ h e) = g row) ->
  map g (zip_with (fun row e => row ++ h e) rows es) = map g rows.
Proof.
  revert es. induction rows as [|row rows IH]; intros [|e es]; simpl;
    try discriminate; auto.
  intros [= H] Hg. rewrite Hg by (left; reflexivity).
  rewrite IH; auto.
Qed.

Section EnrichmentClaims.

Variable haversine : pyval * pyval -> pyval * pyval -> result float.
Variable routing_service : list event -> request -> http_outcome.

Lemma enriched_null_distances (mrts_df malls_df schools_df : DataFrame)
    (api_token : pyval) (err : transport_error)
    (ps : list (pyval * pyval)) (es : list enrichment) (tr : list event) :
  (forall tr' r, routing_service tr' r = TransportFailure err) ->
  enriched haversine routing_service mrts_df malls_df schools_df api_token
    tr ps es ->
  Forall (fun e => e_mrt_dist e = PNone /\ e_mall_dist e = PNone) es.
Proof.
  intros Hfail. revert es tr.
  induction ps as [|p ps IH]; intros [|e es] tr; simpl; try tauto.
  - intros _. constructor.
  - intros [[_ [H1 [_ [H2 _]]]] Hrest]. constructor; [|eapply IH; eauto].
    rewrite H1, H2, !Hfail. split; reflexivity.
Qed.

(** C8. For the subjects the loop goes through, when their lookups return:
    the loop returns the six result lists with one entry more per subject;
    the only events are two requests per subject, to the nearest station
    and to the nearest mall of that subject, in subject order; the school
    and its within-1km flag come from [nearest_loc] alone; each distance
    entry is what [get_distance] made of the answer, so that a service that
    fails on every request leaves null in every distance entry and the loop
    still returns every subject's entries. *)
Theorem enrich_loop_requests (mrts malls schools : ref) (api_token : pyval)
    (ps : list (pyval * pyval)) (acc : features) (w : world) :
  (forall p, In p ps ->
     lookups_succeed haversine (heap w mrts) (heap w malls) (heap w schools) p) ->
  exists es,
    length es = length ps /\
    enriched haversine routing_service (heap w mrts) (heap w malls)
      (heap w schools) api_token (trace w) ps es /\
    enrich_loop haversine routing_service mrts malls schools api_token acc ps w
    = (Ok (fold_left extend es acc), logged (all_requests api_token ps es) w) /\
    count is_request (all_requests api_token ps es) = 2 * length ps /\
    mrt_distances (fold_left extend es acc)
    = mrt_distances acc ++ map e_mrt_dist es /\
    mall_distances (fold_left extend es acc)
    = mall_distances acc ++ map e_mall_dist es /\
    within_1km (fold_left extend es acc)
    = within_1km acc ++ map (fun e => within_cell (e_school_1km e)) es /\
    (forall err, (forall tr r, routing_service tr r = TransportFailure err) ->
       Forall (fun e => e_mrt_dist e = PNone /\ e_mall_dist e = PNone) es).
Proof.
  intros Hlook.
  destruct (enrich_loop_eval haversine routing_service mrts malls schools
              api_token ps acc w Hlook) as [es [Hes Hloop]].
  assert (Hlen : length es = length ps)
    by (eapply enriched_length; eauto).
  destruct (features_fold es acc) as [_ [F2 [_ [F4 [_ F6]]]]].
  exists es. repeat split; auto.
  - apply all_requests_count. exact Hlen.
  - intros err Hfail. eapply enriched_null_distances; eauto.
Qed.

(** C10, amended. On a subject frame that has the two coordinate columns and
    none of the six labels, and whose lookups all return,
    [engineer_distance_features] returns the reference it was given and
    creates no object; the object it refers to then has the six labels after
    its old ones and, row by row in the same order, the six cells after the
    old ones, so that every old column reads as before; no other object
    changes. *)
Theorem engineer_adds_six_columns (hdbs mrts malls schools : ref)
    (api_token : pyval) (w : world) :
  let df := heap w hdbs in
  df_wf df ->
  has_column df "Lat" ->
  has_column df "Long" ->
  (forall p, In p (points df) ->
     lookups_succeed haversine (heap w mrts) (heap w malls) (heap w schools) p) ->
  (forall name, In name new_columns -> ~ In name (df_columns df)) ->
  exists es w',
    engineer_distance_features haversine routing_service
      hdbs mrts malls schools api_token w = (Ok hdbs, w') /\
    next_ref w' = next_ref w /\
    (forall r, r <> hdbs -> heap w' r = heap w r) /\
    df_columns (heap w' hdbs) = df_columns df ++ new_columns /\
    length (df_rows (heap w' hdbs)) = length (df_rows df) /\
    (forall i row, nth_error (df_rows df) i = Some row ->
       exists e, nth_error es i = Some e /\
         nth_error (df_rows (heap w' hdbs)) i
         = Some (row ++ enrichment_cells e)) /\
    (forall name, In name (df_columns df) ->
       df_getitem (heap w' hdbs) name = df_getitem df name).
Proof.
  intros df Hwf Hlat Hlong Hlook Hnew.
  destruct (engineer_eval haversine routing_service hdbs mrts malls schools
              api_token w Hlat Hlong Hlook Hnew)
    as [es [w' [Hes [Hrun [Hheap [Hother [Hnext _]]]]]]].
  fold df in Hheap, Hes.
  assert (Hlen : length es = length (df_rows df)).
  { rewrite (enriched_length _ _ _ _ _ _ _ _ _ Hes). apply length_map. }
  exists es, w'. rewrite Hheap. unfold enriched_frame. simpl.
  repeat split; auto.
  - now apply zip_with_length.
  - intros i row Hrow.
    exact (zip_with_nth_error (fun row e => row ++ enrichment_cells e)
             (df_rows df) es i row Hlen Hrow).
  - intros name Hin. unfold df_getitem. simpl.
    rewrite index_of_app_l by exact Hin.
    destruct (index_of name (df_columns df)) as [j|] eqn:Ej; [|reflexivity].
    f_equal. apply map_zip_with_prefix; [exact Hlen|].
    intros row e Hrow. apply app_nth1.
    unfold df_wf in Hwf. rewrite Forall_forall in Hwf.
    rewrite (Hwf row Hrow). apply (index_of_lt _ _ _ Ej).
Qed.

End EnrichmentClaims.

(** ** The partition into batches *)

Lemma In_firstn {A} (n : nat) (l : list A) (x : A) :
  In x (firstn n l) -> In x l.
Proof.
  intros H. rewrite <- (firstn_skipn n l). apply in_or_app. now left.
Qed.

Lemma In_skipn {A} (n : nat) (l : list A) (x : A) :
  In x (skipn n l) -> In x l.
Proof.
  intros H. rewrite <- (firstn_skipn n l). apply in_or_app. now right.
Qed.

Lemma firstn_plus {A} (a b : nat) (l : list A) :
  firstn (a + b) l = firstn a l ++ firstn b (skipn a l).
Proof.
  revert l. induction a as [|a IH]; intros l; simpl; [reflexivity|].
  destruct l as [|x l]; simpl.
  - now rewrite firstn_nil.
  - now rewrite IH.
Qed.

(** The bounds of the batches, for a batch size of at least 1. *)
Lemma BATCHES_bounds (B n : nat) :
  1 <= B ->
  let k := BATCHES B n in
  n <= k * B /\ (1 <= k -> (k - 1) * B < n) /\
  k = n / B + (if n mod B =? 0 then 0 else 1).
Proof.
  intros HB k. unfold BATCHES in k.
  pose proof (Nat.div_mod_eq (n + B - 1) B) as E.
  pose proof (Nat.mod_upper_bound (n + B - 1) B ltac:(lia)) as U.
  fold k in E.
  assert (H1 : n <= k * B) by nia.
  assert (H2 : 1 <= k -> (k - 1) * B < n) by nia.
  repeat split; auto.
  pose proof (Nat.div_mod_eq n B) as En.
  pose proof (Nat.mod_upper_bound n B ltac:(lia)) as Un.
  destruct (n mod B =? 0) eqn:Z.
  - apply Nat.eqb_eq in Z. rewrite Z in En. nia.
  - apply Nat.eqb_neq in Z. nia.
Qed.

(** The slice of a batch is what it reads like: at most [B] rows from
    position [i * B] on. *)
Lemma batch_of_rows (B : nat) (df : DataFrame) (i : nat) :
  df_rows (batch_of B df i) = firstn B (skipn (i * B) (df_rows df)).
Proof.
  unfold batch_of, df_iloc_slice, batch_end, batch_start, df_len. simpl.
  set (l := df_rows df).
  destruct (Nat.le_gt_cases (i * B + B) (length l)) as [H|H].
  - rewrite Nat.min_l by exact H. f_equal. lia.
  - rewrite Nat.min_r by lia.
    rewrite !firstn_all2; auto; rewrite length_skipn; lia.
Qed.

Lemma concat_batches {A} (B : nat) (l : list A) (k s : nat) :
  concat (map (fun i => firstn B (skipn (i * B) l)) (seq s k))
  = firstn (k * B) (skipn (s * B) l).
Proof.
  revert s. induction k as [|k IH]; intros s; simpl; [reflexivity|].
  rewrite IH, firstn_plus, skipn_skipn. reflexivity.
Qed.

Lemma concat_batch_rows (batch_size : nat) (df : DataFrame) :
  1 <= batch_size ->
  concat (map df_rows (batches batch_size df)) = df_rows df.
Proof.
  intros HB. unfold batches. rewrite map_map.
  rewrite (map_ext _ (fun i => firstn batch_size
                                 (skipn (i * batch_size) (df_rows df))))
    by (intros i; apply batch_of_rows).
  rewrite concat_batches. simpl. apply firstn_all2.
  apply (BATCHES_bounds batch_size (df_len df) HB).
Qed.

Lemma batches_nth (B : nat) (df : DataFrame) (i : nat) :
  i < BATCHES B (df_len df) ->
  nth_error (batches B df) i = Some (batch_of B df i).
Proof.
  intros Hi. unfold batches. apply map_nth_error.
  rewrite (nth_error_nth' _ 0) by (now rewrite length_seq).
  now rewrite seq_nth.
Qed.

(** The appends of a trace. *)
Lemma append_sizes_app (a b : list event) :
  append_sizes (a ++ b) = append_sizes a ++ append_sizes b.
Proof.
  induction a as [|ev a IH]; simpl; [reflexivity|].
  destruct ev; rewrite IH; reflexivity.
Qed.

Lemma append_sizes_requests (api_token : pyval) (ps : list (pyval * pyval))
    (es : list enrichment) :
  append_sizes (all_requests api_token ps es) = [].
Proof.
  unfold all_requests. revert es.
  induction ps as [|p ps IH]; intros [|e es]; simpl; auto.
Qed.

Lemma append_sizes_batches (api_token : pyval) (bs : list DataFrame)
    (ess : list (list enrichment)) :
  Forall2 (fun batch es => length es = length (df_rows batch)) bs ess ->
  append_sizes (concat (zip_with (batch_events api_token) bs ess))
  = map (fun batch => length (df_rows batch)) bs.
Proof.
  intros Hall. induction Hall as [|b es bs' ess' Hlen Hall IH];
    [reflexivity|].
  cbn [zip_with concat map]. rewrite append_sizes_app, IH.
  unfold batch_events at 1. rewrite append_sizes_app, append_sizes_requests.
  cbn [append_sizes app]. f_equal.
  unfold batch_lines, enriched_frame. cbn [df_rows].
  rewrite length_map. apply zip_with_length. exact Hlen.
Qed.

(** ** The batch loop *)
Section BatchLoop.

Variable haversine : pyval * pyval -> pyval * pyval -> result float.
Variable routing_service : list event -> request -> http_outcome.
Variable batch_size : nat.
Variables hdbs mrts malls schools : ref.
Variable api_token : pyval.

(** The frames the loop reads, fixed for the run. *)
Variables hdbs_df mrts_df malls_df schools_df : DataFrame.

Hypothesis has_lat : has_column hdbs_df "Lat".
Hypothesis has_long : has_column hdbs_df "Long".
Hypothesis lookups :
  forall p, In p (points hdbs_df) ->
    lookups_succeed haversine mrts_df malls_df schools_df p.
Hypothesis labels_new :
  forall name, In name new_columns -> ~ In name (df_columns hdbs_df).

Lemma batch_points_incl (i : nat) (p : pyval * pyval) :
  In p (points (batch_of batch_size hdbs_df i)) -> In p (points hdbs_df).
Proof.
  unfold points. rewrite batch_of_rows. intros H.
  apply in_map_iff in H. destruct H as [row [<- Hrow]].
  apply in_map_iff. exists row. split; [reflexivity|].
  eapply In_skipn, In_firstn, Hrow.
Qed.

(** One pass of the loop body. *)
Lemma batch_body_eval (i : nat) (w : world) :
  tables_in_place hdbs mrts malls schools
    hdbs_df mrts_df malls_df schools_df w ->
  let batch := batch_of batch_size hdbs_df i in
  exists es w',
    length es = length (df_rows batch) /\
    batch_body haversine routing_service batch_size hdbs mrts malls schools
      api_token i w = (Ok tt, w') /\
    tables_in_place hdbs mrts malls schools
    hdbs_df mrts_df malls_df schools_df w' /\
    trace w' = trace w ++ batch_events api_token batch es /\
    out_file w' = out_file w ++ batch_lines batch es.
Proof.
  intros [Hh [Hm [Hl [Hs [Bh [Bm [Bl Bs]]]]]]] batch.
  set (n := next_ref w).
  set (wa := {| heap := fun r' => if r' =? n then batch else heap w r';
                next_ref := S n; trace := trace w; out_file := out_file w |}).
  assert (Hold : forall r, r < n -> heap wa r = heap w r).
  { intros r Hr. simpl. destruct (r =? n) eqn:E; [|reflexivity].
    apply Nat.eqb_eq in E. lia. }
  assert (Hbatch : heap wa n = batch) by (simpl; now rewrite Nat.eqb_refl).
  destruct (engineer_eval haversine routing_service n mrts malls schools
              api_token wa) as [es [we [Hes [Hrun [Hheap [Hother [Hnext [Htr Hout]]]]]]]].
  { rewrite Hbatch. exact has_lat. }
  { rewrite Hbatch. exact has_long. }
  { rewrite Hbatch, !Hold, Hm, Hl, Hs by assumption.
    intros p Hp. apply lookups. eapply batch_points_incl, Hp. }
  { rewrite Hbatch. exact labels_new. }
  rewrite Hbatch in *.
  exists es.
  eexists. split; [|split; [|split; [|split]]].
  - rewrite (enriched_length _ _ _ _ _ _ _ _ _ Hes). apply length_map.
  - unfold batch_body, St.bind, St.deref, St.alloc. rewrite Hh. fold n. fold batch.
    fold wa. rewrite Hrun. unfold to_csv, St.append_file, sleep, St.emit.
    simpl. rewrite Hheap. reflexivity.
  - unfold tables_in_place. simpl. rewrite Hnext. simpl.
    rewrite !Hother, !Hold by lia. repeat split; auto; lia.
  - simpl. rewrite Htr. unfold batch_events, batch_lines. simpl.
    now rewrite <- !app_assoc.
  - simpl. rewrite Hout. reflexivity.
Qed.

(** The passes for the batches [i], [i + 1], ... *)
Lemma for_range_from_eval (n i : nat) (w : world) :
  tables_in_place hdbs mrts malls schools
    hdbs_df mrts_df malls_df schools_df w ->
  let bs := map (batch_of batch_size hdbs_df) (seq i n) in
  exists ess w',
    Forall2 (fun batch es => length es = length (df_rows batch)) bs ess /\
    St.for_range_from i n
      (batch_body haversine routing_service batch_size hdbs mrts malls schools
         api_token) w = (Ok tt, w') /\
    tables_in_place hdbs mrts malls schools
    hdbs_df mrts_df malls_df schools_df w' /\
    trace w' = trace w ++ concat (zip_with (batch_events api_token) bs ess) /\
    out_file w' = out_file w ++ concat (zip_with batch_lines bs ess).
Proof.
  revert i w. induction n as [|n IH]; intros i w Hw; simpl.
  - exists [], w. split; [constructor|]. split; [reflexivity|].
    split; [exact Hw|]. now rewrite !app_nil_r.
  - destruct (batch_body_eval i w Hw) as [es [w1 [Hlen [Hrun [Hw1 [Htr Hout]]]]]].
    destruct (IH (S i) w1 Hw1) as [ess [w2 [Hall [Hrest [Hw2 [Htr2 Hout2]]]]]].
    exists (es :: ess), w2. split; [|split; [|split; [|split]]].
    + constructor; assumption.
    + unfold St.bind. rewrite Hrun. exact Hrest.
    + exact Hw2.
    + rewrite Htr2, Htr. simpl. now rewrite <- !app_assoc.
    + rewrite Hout2, Hout. simpl. now rewrite <- !app_assoc.
Qed.

Lemma batch_loop_eval (w : world) :
  tables_in_place hdbs mrts malls schools
    hdbs_df mrts_df malls_df schools_df w ->
  exists ess w',
    Forall2 (fun batch es => length es = length (df_rows batch))
      (batches batch_size hdbs_df) ess /\
    batch_loop haversine routing_service batch_size hdbs mrts malls schools
      api_token w = (Ok tt, w') /\
    trace w'
    = trace w ++ concat (zip_with (batch_events api_token)
                           (batches batch_size hdbs_df) ess) /\
    out_file w'
    = out_file w ++ concat (zip_with batch_lines
                              (batches batch_size hdbs_df) ess).
Proof.
  intros Hw.
  destruct (for_range_from_eval (BATCHES batch_size (df_len hdbs_df)) 0 w Hw)
    as [ess [w' [Hall [Hrun [_ [Htr Hout]]]]]].
  exists ess, w'. repeat split; auto.
  unfold batch_loop, St.bind, St.deref, St.for_range.
  destruct Hw as [-> _]. exact Hrun.
Qed.

End BatchLoop.

(** C3. For a batch size [B] of at least 1 and a table of [n] subjects, a
    run of the loop that can go through takes [ceil(n / B)] batches, one
    after the other: what it does is, batch after batch in the order of the
    table, the requests for the subjects of the batch, one append of as many
    lines as the batch has subjects and the cooldown. Batch [i] is the run
    of at most [B] rows from position [i * B] on; every batch but the last
    has [B] rows and the last has between 1 and [B]; put end to end in loop
    order the batches are the rows of the table, each once and in the order
    of the table. *)
Theorem batches_partition
    (haversine : pyval * pyval -> pyval * pyval -> result float)
    (routing_service : list event -> request -> http_outcome)
    (B : nat) (hdbs mrts malls schools : ref) (api_token : pyval)
    (w : world) :
  1 <= B ->
  ready_to_run haversine hdbs mrts malls schools w ->
  let df := heap w hdbs in
  let n := df_len df in
  let k := BATCHES B n in
  exists ess w' evs,
    batch_loop haversine routing_service B hdbs mrts malls schools
      api_token w = (Ok tt, w') /\
    trace w' = trace w ++ evs /\
    evs = concat (zip_with (batch_events api_token) (batches B df) ess) /\
    append_sizes evs = map (fun batch => length (df_rows batch)) (batches B df) /\
    length (batches B df) = k /\
    k = n / B + (if n mod B =? 0 then 0 else 1) /\
    concat (map df_rows (batches B df)) = df_rows df /\
    (forall i, i < k ->
       nth_error (batches B df) i = Some (batch_of B df i) /\
       df_rows (batch_of B df i) = firstn B (skipn (i * B) (df_rows df))) /\
    (forall i, S i < k -> length (df_rows (batch_of B df i)) = B) /\
    (forall i, S i = k ->
       1 <= length (df_rows (batch_of B df i)) <= B /\
       length (df_rows (batch_of B df i)) = n - i * B).
Proof.
  intros HB [Hlat [Hlong [Hlook [Hnew [Bh [Bm [Bl Bs]]]]]]] df n k.
  destruct (batch_loop_eval haversine routing_service B
              hdbs mrts malls schools api_token
              (heap w hdbs) (heap w mrts) (heap w malls) (heap w schools)
              Hlat Hlong Hlook Hnew w)
    as [ess [w' [Hall [Hrun [Htr _]]]]].
  { unfold tables_in_place. repeat split; auto. }
  destruct (BATCHES_bounds B n HB) as [Hup [Hlow Hceil]].
  fold df in Hall, Htr. fold k in Hup, Hlow, Hceil.
  exists ess, w'. eexists.
  split; [exact Hrun|]. split; [exact Htr|]. split; [reflexivity|].
  split; [apply append_sizes_batches; exact Hall|].
  split; [unfold batches; now rewrite length_map, length_seq|].
  split; [exact Hceil|].
  split; [apply concat_batch_rows; exact HB|].
  split; [|split].
  - intros i Hi. split; [apply batches_nth; exact Hi | apply batch_of_rows].
  - intros i Hi. rewrite batch_of_rows, length_firstn, length_skipn.
    fold (df_len df). fold n. nia.
  - intros i Hi. rewrite batch_of_rows, length_firstn, length_skipn.
    fold (df_len df). fold n. nia.
Qed.

(** ** Requests per batch, lines per run *)

Lemma count_app {A} (f : A -> bool) (a b : list A) :
  count f (a ++ b) = count f a + count f b.
Proof. unfold count. now rewrite filter_app, length_app. Qed.

Lemma batch_lines_headerless (batch : DataFrame) (es : list enrichment) :
  count is_header (batch_lines batch es) = 0.
Proof.
  unfold batch_lines, count.
  induction (df_rows (enriched_frame batch es)); simpl; auto.
Qed.

Lemma Forall2_impl {A B} (P Q : A -> B -> Prop) (l1 : list A) (l2 : list B) :
  (forall a b, In a l1 -> P a b -> Q a b) ->
  Forall2 P l1 l2 -> Forall2 Q l1 l2.
Proof.
  intros H HP. induction HP as [|a b l1 l2 Hab HP IH]; constructor.
  - apply H; [left; reflexivity | exact Hab].
  - apply IH. intros x y Hx. apply H. right. exact Hx.
Qed.

(** C5, amended. A run of the batch loop over tables whose lookups all
    return is, batch after batch: the requests of the batch, the append of
    its lines, its cooldown of 30 seconds. The requests of a batch are two
    per subject, hence at most twice the batch size: 200 between the start
    of a batch and the end of its cooldown when the batch size is 100. *)
Theorem batch_requests_bound
    (haversine : pyval * pyval -> pyval * pyval -> result float)
    (routing_service : list event -> request -> http_outcome)
    (batch_size : nat) (hdbs mrts malls schools : ref) (api_token : pyval)
    (w : world) :
  1 <= batch_size ->
  has_column (heap w hdbs) "Lat" ->
  has_column (heap w hdbs) "Long" ->
  (forall p, In p (points (heap w hdbs)) ->
     lookups_succeed haversine (heap w mrts) (heap w malls) (heap w schools) p) ->
  (forall name, In name new_columns -> ~ In name (df_columns (heap w hdbs))) ->
  hdbs < next_ref w -> mrts < next_ref w ->
  malls < next_ref w -> schools < next_ref w ->
  let bs := batches batch_size (heap w hdbs) in
  exists ess w',
    batch_loop haversine routing_service batch_size hdbs mrts malls schools
      api_token w = (Ok tt, w') /\
    trace w' = trace w ++ concat (zip_with (batch_events api_token) bs ess) /\
    Forall2 (fun batch es =>
               let events := batch_events api_token batch es in
               count is_request events = 2 * length (df_rows batch) /\
               count is_request events <= 2 * batch_size /\
               count is_sleep events = 1 /\
               last events (EvSleep 0) = EvSleep 30)
      bs ess.
Proof.
  intros HB Hlat Hlong Hlook Hnew Bh Bm Bl Bs bs.
  destruct (batch_loop_eval haversine routing_service batch_size
              hdbs mrts malls schools api_token
              (heap w hdbs) (heap w mrts) (heap w malls) (heap w schools)
              Hlat Hlong Hlook Hnew w)
    as [ess [w' [Hall [Hrun [Htr _]]]]].
  { unfold tables_in_place. repeat split; auto. }
  exists ess, w'. split; [exact Hrun|]. split; [exact Htr|].
  revert Hall. apply Forall2_impl. intros batch es Hin Hlen.
  apply in_map_iff in Hin. destruct Hin as [i [<- _]].
  cbv zeta. unfold batch_events.
  set (batch := batch_of batch_size (heap w hdbs) i) in *.
  assert (Hp : length (points batch) = length (df_rows batch))
    by apply length_map.
  destruct (all_requests_count api_token (points batch) es) as [Hr Hs];
    [congruence|].
  rewrite Hp in Hr.
  assert (Hle : length (df_rows batch) <= batch_size)
    by (unfold batch; rewrite batch_of_rows; apply firstn_le_length).
  rewrite !count_app, Hr, Hs.
  change [EvAppend (batch_lines batch es); EvSleep 30]
    with ([EvAppend (batch_lines batch es)] ++ [EvSleep 30]).
  rewrite app_assoc, last_last.
  generalize dependent (length (df_rows batch)). intros m _ _ _ Hm.
  unfold count. simpl. repeat split; lia.
Qed.

(** A run over no table cannot write a header line: every line a batch
    appends is a data line. *)
Lemma batch_lines_all_headerless (bs : list DataFrame)
    (ess : list (list enrichment)) :
  count is_header (concat (zip_with batch_lines bs ess)) = 0.
Proof.
  revert ess. induction bs as [|b bs IH]; intros [|es ess]; simpl; auto.
  now rewrite count_app, batch_lines_headerless, IH.
Qed.

(** ** The runs of the examples *)

(** Counterexample to C5 as stated: one batch of 100 subjects sends 200
    requests before its single cooldown, more than the batch size. *)
Lemma batch_request_limit_counterexample :
  let run := main grid_distance example_service 0 1 2 3 (PStr "token")
               (subjects_world 100) in
  fst run = Ok tt /\
  count is_sleep (trace (snd run)) = 1 /\
  count is_request (trace (snd run)) = 200 /\
  ~ count is_request (trace (snd run)) <= BATCH_SIZE.
Proof.
  assert (E : count is_request
                (trace (snd (main grid_distance example_service 0 1 2 3
                               (PStr "token") (subjects_world 100)))) = 200)
    by (vm_compute; reflexivity).
  cbv zeta. rewrite E. unfold BATCH_SIZE.
  split; [vm_compute; reflexivity|].
  split; [vm_compute; reflexivity|].
  split; [reflexivity | lia].
Qed.

(** C4, at 250 subjects and an empty output file: the run appends three
    times, 100, 100 and 50 lines, the 250 subjects in input order; the file
    ends with 250 data lines and without any header line. *)
Theorem main_writes_no_header :
  let run := main grid_distance example_service 0 1 2 3 (PStr "token")
               (subjects_world 250) in
  fst run = Ok tt /\
  append_sizes (trace (snd run)) = [100; 100; 50] /\
  map (line_cells 3) (out_file (snd run)) = df_rows (subject_frame 250) /\
  length (out_file (snd run)) = 250 /\
  count is_header (out_file (snd run)) = 0.
Proof.
  cbv zeta. vm_compute. auto.
Qed.

(** Counterexample to C10 as stated: on a subject frame that already has a
    column labelled [Nearest_MRT] the lookups return and the call returns,
    but only five labels are new, and the old column no longer reads as
    before. *)
Lemma engineer_overwrites_column_counterexample :
  let run := engineer_distance_features grid_distance example_service
               0 1 2 3 (PStr "token") tagged_world in
  fst run = Ok 0 /\
  df_columns (heap (snd run) 0)
  = df_columns tagged_hdbs
      ++ ["Distance_MRT"; "Nearest_Mall"; "Distance_Mall"; "Nearest_Pri_Sch";
          "Within_1km_of_Pri"] /\
  df_getitem tagged_hdbs "Nearest_MRT" = Ok [PStr "old"] /\
  df_getitem (heap (snd run) 0) "Nearest_MRT" = Ok [PStr "B"] /\
  ~ (df_columns (heap (snd run) 0) = df_columns tagged_hdbs ++ new_columns /\
     df_getitem (heap (snd run) 0) "Nearest_MRT"
     = df_getitem tagged_hdbs "Nearest_MRT").
Proof.
  cbv zeta.
  split; [vm_compute; reflexivity|].
  split; [vm_compute; reflexivity|].
  split; [vm_compute; reflexivity|].
  split; [vm_compute; reflexivity|].
  intros [_ H]. vm_compute in H. discriminate.
Qed.

(** The lookups of the two example subjects return. *)
Lemma example_lookups (p : pyval * pyval) :
  In p (points example_hdbs) ->
  lookups_succeed grid_distance example_candidates example_candidates
    example_candidates p.
Proof.
  intros Hp. simpl in Hp.
  destruct Hp as [<-|[<-|[]]]; repeat split; eexists; vm_compute; reflexivity.
Defined.

Lemma example_labels_new (name : string) :
  In name new_columns -> ~ In name (df_columns example_hdbs).
Proof.
  intros Hin Hc. simpl in Hin, Hc.
  repeat (destruct Hin as [<-|Hin];
          [repeat (destruct Hc as [Hc|Hc]; [discriminate|]); contradiction|]).
  contradiction.
Defined.

(** Witness of C8: the loop over the two example subjects. *)
Lemma enrich_loop_requests_witness :
  exists es,
    length es = 2 /\
    enrich_loop grid_distance example_service 1 2 3 (PStr "token")
      no_features (points example_hdbs) example_world
    = (Ok (fold_left extend es no_features),
       logged (all_requests (PStr "token") (points example_hdbs) es)
         example_world).
Proof.
  destruct (enrich_loop_requests grid_distance example_service 1 2 3
              (PStr "token") (points example_hdbs) no_features example_world
              example_lookups)
    as [es [H1 [_ [H2 _]]]].
  exists es. split; assumption.
Defined.

(** Witness of C10: the example subject frame. *)
Lemma engineer_adds_six_columns_witness :
  exists w',
    engineer_distance_features grid_distance example_service 0 1 2 3
      (PStr "token") example_world = (Ok 0, w') /\
    df_columns (heap w' 0) = df_columns example_hdbs ++ new_columns.
Proof.
  destruct (engineer_adds_six_columns grid_distance example_service 0 1 2 3
              (PStr "token") example_world)
    as [es [w' [H1 [_ [_ [H2 _]]]]]].
  - unfold df_wf. simpl. repeat constructor.
  - unfold has_column. simpl. tauto.
  - unfold has_column. simpl. tauto.
  - exact example_lookups.
  - exact example_labels_new.
  - exists w'. split; assumption.
Defined.

(** Witness of C5: the two example subjects in batches of one. *)
Lemma batch_requests_bound_witness :
  exists ess w',
    batch_loop grid_distance example_service 1 0 1 2 3 (PStr "token")
      example_world = (Ok tt, w') /\
    trace w'
    = concat (zip_with (batch_events (PStr "token"))
                (batches 1 example_hdbs) ess).
Proof.
  destruct (batch_requests_bound grid_distance example_service 1 0 1 2 3
              (PStr "token") example_world)
    as [ess [w' [H1 [H2 _]]]].
  - lia.
  - unfold has_column. simpl. tauto.
  - unfold has_column. simpl. tauto.
  - exact example_lookups.
  - exact example_labels_new.
  - simpl. lia.
  - simpl. lia.
  - simpl. lia.
  - simpl. lia.
  - exists ess, w'. split; [exact H1 | exact H2].
Defined.

(** The run over five subjects can go through. *)
Lemma subjects_ready : ready_to_run grid_distance 0 1 2 3 (subjects_world 5).
Proof.
  unfold ready_to_run. simpl.
  split; [unfold has_column; simpl; tauto|].
  split; [unfold has_column; simpl; tauto|].
  split.
  { intros p Hp.
    repeat (destruct Hp as [<-|Hp];
            [repeat split; eexists; vm_compute; reflexivity|]).
    contradiction. }
  split.
  { intros name Hin Hc.
    repeat (destruct Hin as [<-|Hin];
            [repeat (destruct Hc as [Hc|Hc]; [discriminate|]); contradiction|]).
    contradiction. }
  repeat split; lia.
Defined.

(** Witness of C3: five subjects in batches of two. *)
Lemma batches_partition_witness :
  exists ess w' evs,
    batch_loop grid_distance example_service 2 0 1 2 3 (PStr "token")
      (subjects_world 5) = (Ok tt, w') /\
    trace w' = trace (subjects_world 5) ++ evs /\
    evs = concat (zip_with (batch_events (PStr "token"))
                    (batches 2 (subject_frame 5)) ess) /\
    append_sizes evs = [2; 2; 1] /\
    length (batches 2 (subject_frame 5)) = 3 /\
    3 = 5 / 2 + 1 /\
    concat (map df_rows (batches 2 (subject_frame 5)))
    = df_rows (subject_frame 5) /\
    (forall i, i < 3 ->
       nth_error (batches 2 (subject_frame 5)) i
       = Some (batch_of 2 (subject_frame 5) i) /\
       df_rows (batch_of 2 (subject_frame 5) i)
       = firstn 2 (skipn (i * 2) (df_rows (subject_frame 5)))) /\
    (forall i, S i < 3 ->
       length (df_rows (batch_of 2 (subject_frame 5) i)) = 2) /\
    (forall i, S i = 3 ->
       1 <= length (df_rows (batch_of 2 (subject_frame 5) i)) <= 2 /\
       length (df_rows (batch_of 2 (subject_frame 5) i)) = 5 - i * 2).
Proof.
  apply (batches_partition grid_distance example_service 2 0 1 2 3
           (PStr "token") (subjects_world 5)).
  - lia.
  - exact subjects_ready.
Defined.

(** ** The remaining-lease transform *)
Module CleaningFacts.
Import Cleaning.

Lemma append_assoc (a b c : string) : ((a ++ b) ++ c = a ++ (b ++ c))%string.
Proof. induction a as [|x a IH]; simpl; [reflexivity | now rewrite IH]. Qed.

Lemma append_nil_r (a : string) : (a ++ "")%string = a.
Proof. induction a as [|x a IH]; simpl; [reflexivity | now rewrite IH]. Qed.












Local Open Scope Q_scope.


Lemma round_half_even_Z (q : Q) (z : Z) :
  q == inject_Z z -> round_half_even q = z.
Proof.
  intros H. unfold round_half_even.
  rewrite (Qfloor_comp _ _ H), Qfloor_Z.
  assert (E : Qcompare (q - inject_Z z) (1 # 2) = Lt)
    by (apply (proj1 (Qlt_alt _ _)); lra).
  now rewrite E.
Qed.




End CleaningFacts.

(** * Further properties *)

(** ** [authenticate] and the start of the script *)
Section ScriptFacts.

Variable haversine : pyval * pyval -> pyval * pyval -> result float.
Variable routing_service : list event -> request -> http_outcome.
Variable token_service : pyval -> pyval -> http_outcome.

(** What [authenticate] leaves behind, whatever comes back: the POST of
    the credentials in the trace, and nothing else. *)
Lemma authenticate_posts (w : world) :
  snd (authenticate token_service w) = logged [EvPost TOKEN_URL payload] w.
Proof.
  unfold authenticate, St.try_except, St.bind, requests_post, St.lift.
  destruct (token_service EMAIL PASSWORD) as [e|status body]; [reflexivity|].
  cbn [fst snd].
  destruct (raise_for_status status) as [u|e];
    [|destruct (is_RequestException e); reflexivity].
  destruct (response_json body) as [v|e];
    [|destruct (is_RequestException e); reflexivity].
  destruct (py_get v "access_token" PNone) as [t|e]; [reflexivity|].
  destruct (is_RequestException e); reflexivity.
Qed.



End ScriptFacts.


(** ** What a run does to the outside, whatever happens *)

Lemma appended_app (a b : list event) :
  appended (a ++ b) = appended a ++ appended b.
Proof.
  induction a as [|ev a IH]; simpl; [reflexivity|].
  destruct ev; rewrite IH;
    [reflexivity | now rewrite app_assoc | reflexivity | reflexivity].
Qed.

Lemma run_frame_silent {A} (P : event -> Prop) (c : M A) :
  (forall w, trace (snd (c w)) = trace w /\ out_file (snd (c w)) = out_file w) ->
  run_frame P c.
Proof.
  intros H w. destruct (H w) as [Ht Ho]. exists [].
  rewrite Ht, Ho, !app_nil_r. auto.
Qed.

Lemma run_frame_ret {A} (P : event -> Prop) (a : A) : run_frame P (St.ret a).
Proof. apply run_frame_silent. intros w. split; reflexivity. Qed.

Lemma run_frame_lift {A} (P : event -> Prop) (r : result A) :
  run_frame P (St.lift r).
Proof. apply run_frame_silent. intros w. split; reflexivity. Qed.

Lemma run_frame_deref (P : event -> Prop) (r : ref) : run_frame P (St.deref r).
Proof. apply run_frame_silent. intros w. split; reflexivity. Qed.

Lemma run_frame_store (P : event -> Prop) (r : ref) (df : DataFrame) :
  run_frame P (St.store r df).
Proof. apply run_frame_silent. intros w. split; reflexivity. Qed.

Lemma run_frame_alloc (P : event -> Prop) (df : DataFrame) :
  run_frame P (St.alloc df).
Proof. apply run_frame_silent. intros w. split; reflexivity. Qed.

Lemma run_frame_bind {A B} (P : event -> Prop) (c : M A) (k : A -> M B) :
  run_frame P c -> (forall a, run_frame P (k a)) -> run_frame P (St.bind c k).
Proof.
  intros Hc Hk w. unfold St.bind.
  destruct (Hc w) as [evs [Ht [HP Ho]]].
  destruct (c w) as [[a|e] w1]; simpl in Ht, Ho.
  - destruct (Hk a w1) as [evs' [Ht' [HP' Ho']]].
    exists (evs ++ evs'). rewrite Ht', Ho', Ht, Ho, appended_app, !app_assoc.
    split; [reflexivity|]. split; [|reflexivity].
    apply Forall_app. auto.
  - exists evs. simpl. auto.
Qed.

Lemma run_frame_try_except {A} (P : event -> Prop) (body : M A)
    (handler : exn -> M A) :
  run_frame P body -> (forall e, run_frame P (handler e)) ->
  run_frame P (St.try_except body handler).
Proof.
  intros Hb Hh w. unfold St.try_except.
  destruct (Hb w) as [evs [Ht [HP Ho]]].
  destruct (body w) as [[a|e] w1]; simpl in Ht, Ho.
  - exists evs. simpl. auto.
  - destruct (Hh e w1) as [evs' [Ht' [HP' Ho']]].
    exists (evs ++ evs'). rewrite Ht', Ho', Ht, Ho, appended_app, !app_assoc.
    split; [reflexivity|]. split; [|reflexivity].
    apply Forall_app. auto.
Qed.

Lemma run_frame_emit (P : event -> Prop) (ev : event) :
  P ev -> appended [ev] = [] -> run_frame P (St.emit ev).
Proof.
  intros HP Ha w. exists [ev]. rewrite Ha, app_nil_r. simpl. auto.
Qed.

Lemma run_frame_append_file (P : event -> Prop) (lines : list csv_line) :
  P (EvAppend lines) -> run_frame P (St.append_file lines).
Proof.
  intros HP w. exists [EvAppend lines]. simpl. rewrite app_nil_r. auto.
Qed.

Lemma data_lines_headerless (rows : list (list pyval)) :
  count is_header (map DataLine rows) = 0.
Proof. unfold count. induction rows; simpl; auto. Qed.

Section RunFrame.

Variable haversine : pyval * pyval -> pyval * pyval -> result float.
Variable routing_service : list event -> request -> http_outcome.
Variable api_token : pyval.

Lemma run_frame_requests_get (r : request) :
  walk_request_with api_token r ->
  run_frame (run_event api_token) (requests_get routing_service r).
Proof.
  intros Hr w. exists [EvRequest r]. unfold requests_get.
  destruct (routing_service (trace w) r); simpl; rewrite app_nil_r; auto.
Qed.

Lemma run_frame_get_distance (hdb_lat hdb_long loc_lat loc_long : pyval) :
  run_frame (run_event api_token)
    (get_distance routing_service hdb_lat hdb_long loc_lat loc_long api_token).
Proof.
  unfold get_distance. apply run_frame_try_except.
  - apply run_frame_bind.
    + apply run_frame_requests_get. repeat split.
    + intros response. apply run_frame_bind; [apply run_frame_lift|].
      intros _. apply run_frame_bind; [apply run_frame_lift|].
      intros body. apply run_frame_bind; [apply run_frame_lift|].
      intros rs. apply run_frame_lift.
  - intros e. apply run_frame_ret.
Qed.

Lemma run_frame_enrich_step (mrts malls schools : ref) (acc : features)
    (hdb_lat hdb_long : pyval) :
  run_frame (run_event api_token)
    (enrich_step haversine routing_service mrts malls schools api_token
       acc hdb_lat hdb_long).
Proof.
  unfold enrich_step.
  apply run_frame_bind; [apply run_frame_deref|]. intros mrts_df.
  apply run_frame_bind; [apply run_frame_lift|]. intros [[[mrt la] lo] n1].
  apply run_frame_bind; [apply run_frame_get_distance|]. intros d1.
  apply run_frame_bind; [apply run_frame_deref|]. intros malls_df.
  apply run_frame_bind; [apply run_frame_lift|]. intros [[[mall la2] lo2] n2].
  apply run_frame_bind; [apply run_frame_get_distance|]. intros d2.
  apply run_frame_bind; [apply run_frame_deref|]. intros schools_df.
  apply run_frame_bind; [apply run_frame_lift|]. intros [[[school la3] lo3] s1].
  apply run_frame_ret.
Qed.

Lemma run_frame_enrich_loop (mrts malls schools : ref)
    (ps : list (pyval * pyval)) (acc : features) :
  run_frame (run_event api_token)
    (enrich_loop haversine routing_service mrts malls schools api_token
       acc ps).
Proof.
  revert acc. induction ps as [|[lat long] ps IH]; intros acc; simpl.
  - apply run_frame_ret.
  - apply run_frame_bind; [apply run_frame_enrich_step|]. intros acc'. apply IH.
Qed.

Lemma run_frame_assign_column (hdbs : ref) (name : string)
    (values : list pyval) :
  run_frame (run_event api_token) (assign_column hdbs name values).
Proof.
  unfold assign_column.
  apply run_frame_bind; [apply run_frame_deref|]. intros df.
  apply run_frame_bind; [apply run_frame_lift|]. intros df'.
  apply run_frame_store.
Qed.

Lemma run_frame_engineer (hdbs mrts malls schools : ref) :
  run_frame (run_event api_token)
    (engineer_distance_features haversine routing_service
       hdbs mrts malls schools api_token).
Proof.
  unfold engineer_distance_features.
  apply run_frame_bind; [apply run_frame_deref|]. intros df.
  apply run_frame_bind; [apply run_frame_lift|]. intros lat.
  apply run_frame_bind; [apply run_frame_lift|]. intros long.
  apply run_frame_bind; [apply run_frame_enrich_loop|]. intros acc.
  repeat (apply run_frame_bind; [apply run_frame_assign_column|]; intros _).
  apply run_frame_ret.
Qed.

Lemma run_frame_batch_body (batch_size : nat) (hdbs mrts malls schools : ref)
    (i : nat) :
  run_frame (run_event api_token)
    (batch_body haversine routing_service batch_size hdbs mrts malls schools
       api_token i).
Proof.
  unfold batch_body.
  apply run_frame_bind; [apply run_frame_deref|]. intros df.
  apply run_frame_bind; [apply run_frame_alloc|]. intros batch.
  apply run_frame_bind; [apply run_frame_engineer|]. intros r.
  apply run_frame_bind; [apply run_frame_deref|]. intros out.
  apply run_frame_bind.
  - unfold to_csv. apply run_frame_append_file. simpl.
    apply data_lines_headerless.
  - intros _. unfold sleep. apply run_frame_emit; reflexivity.
Qed.

Lemma run_frame_main (hdbs mrts malls schools : ref) :
  run_frame (run_event api_token)
    (main haversine routing_service hdbs mrts malls schools api_token).
Proof.
  unfold main, batch_loop.
  apply run_frame_bind; [apply run_frame_deref|]. intros df.
  unfold St.for_range. generalize 0.
  induction (BATCHES BATCH_SIZE (df_len df)) as [|n IH]; intros i; simpl.
  - apply run_frame_ret.
  - apply run_frame_bind; [apply run_frame_batch_body|]. intros _. apply IH.
Qed.

End RunFrame.

(** X3. Whatever the services answer and whether the script ends, exits or
    fails, what it does to the outside begins with the POST of the
    credentials to the token URL, the only POST of the run; the events that
    follow are requests for a walking route sent to the routing URL with the
    token that [authenticate] returned, appends of data lines and sleeps of
    30 seconds; the output file grows by exactly the appended lines, none of
    them a header. *)
Theorem script_frame
    (haversine : pyval * pyval -> pyval * pyval -> result float)
    (routing_service : list event -> request -> http_outcome)
    (token_service : pyval -> pyval -> http_outcome)
    (hdbs mrts malls schools : ref) (w : world) :
  let w' := snd (script haversine routing_service token_service
                   hdbs mrts malls schools w) in
  exists evs,
    trace w' = trace w ++ EvPost TOKEN_URL payload :: evs /\
    out_file w' = out_file w ++ appended evs /\
    count is_header (appended evs) = 0 /\
    (evs = [] \/
     exists api_token,
       fst (authenticate token_service w) = Ok api_token /\
       api_token <> PNone /\
       Forall (run_event api_token) evs).
Proof.
  cbv zeta. unfold script, St.bind.
  pose proof (authenticate_posts token_service w) as Hp.
  destruct (authenticate token_service w) as [[api_token|e] w1] eqn:Ea;
    simpl in Hp; subst w1.
  2:{ exists []. simpl. rewrite app_nil_r. auto. }
  destruct (is_None api_token) eqn:En.
  { exists []. simpl. rewrite app_nil_r. auto. }
  destruct (run_frame_main haversine routing_service api_token
              hdbs mrts malls schools (logged [EvPost TOKEN_URL payload] w))
    as [evs [Ht [HP Ho]]].
  exists evs.
  destruct (main haversine routing_service hdbs mrts malls schools api_token
              (logged [EvPost TOKEN_URL payload] w)) as [[u|e] w2];
    simpl in Ht, Ho |- *.
  all: rewrite Ht, Ho, <- app_assoc.
  all: split; [reflexivity|]; split; [reflexivity|]; split.
  all: try (right; exists api_token; split; [reflexivity|];
            split; [intros ->; discriminate | exact HP]).
  all: clear Ht Ho; induction HP as [|ev evs Hev HP IH]; [reflexivity|];
    destruct ev; simpl; auto; try contradiction;
    rewrite count_app; simpl in Hev; lia.
Qed.

(** ** More on [get_distance] *)
Section GetDistanceFacts.

Variable routing_service : list event -> request -> http_outcome.

(** X4. When the routing service answers with a status that is neither 4xx
    nor 5xx and a JSON object whose [route_summary] is an object with a
    [total_distance], [get_distance] returns that value as it is; the call
    has sent one request, with the two coordinate pairs, the route type
    [walk] and the token, and has changed nothing else. *)
Theorem get_distance_total_distance
    (hdb_lat hdb_long loc_lat loc_long api_token : pyval) (w : world)
    (status : Z) (d rs : list (string * pyval)) (v : pyval) :
  let req := route_request hdb_lat hdb_long loc_lat loc_long api_token in
  routing_service (trace w) req = Response status (Some (PDict d)) ->
  ~ (400 <= status < 600)%Z ->
  assoc_get "route_summary" d = Some (PDict rs) ->
  assoc_get "total_distance" rs = Some v ->
  get_distance routing_service hdb_lat hdb_long loc_lat loc_long api_token w
  = (Ok v, logged [EvRequest req] w) /\
  req_start req = (hdb_lat, hdb_long) /\ req_end req = (loc_lat, loc_long) /\
  walk_request_with api_token req.
Proof.
  intros req Hresp Hstatus Hsummary Hdistance.
  split; [|repeat split].
  rewrite get_distance_eval. fold req. rewrite Hresp. unfold distance_of.
  destruct ((400 <=? status) && (status <? 600))%Z eqn:Es.
  - apply andb_true_iff in Es. destruct Es as [H1 H2].
    apply Z.leb_le in H1. apply Z.ltb_lt in H2. exfalso. apply Hstatus. lia.
  - rewrite Hsummary, Hdistance. reflexivity.
Qed.

(** X5. A JSON answer of the wrong shape is swallowed like a failure:
    when the body is JSON but no object, or its [route_summary] is no object
    (null, a list, a number, a string), [get_distance] returns null. *)
Theorem get_distance_wrong_shape
    (hdb_lat hdb_long loc_lat loc_long api_token : pyval) (w : world) :
  let req := route_request hdb_lat hdb_long loc_lat loc_long api_token in
  forall status body,
    routing_service (trace w) req = Response status (Some body) ->
    (forall d, body = PDict d ->
       exists rs, assoc_get "route_summary" d = Some rs /\
                  forall o, rs <> PDict o) ->
    get_distance routing_service hdb_lat hdb_long loc_lat loc_long api_token w
    = (Ok PNone, logged [EvRequest req] w).
Proof.
  intros req status body Hresp Hshape.
  rewrite get_distance_eval. fold req. rewrite Hresp. unfold distance_of.
  destruct ((400 <=? status) && (status <? 600))%Z; [reflexivity|].
  destruct body; try reflexivity.
  destruct (Hshape d eq_refl) as [rs [-> Hrs]].
  destruct rs; try reflexivity. exfalso. eapply Hrs. reflexivity.
Qed.

End GetDistanceFacts.

(** Witness of X4: the first example subject, whose route the example
    service knows. *)
Lemma get_distance_total_distance_witness :
  get_distance example_service (PInt 1) (PInt 1) (PInt 1) (PInt 0)
    (PStr "token") example_world
  = (Ok (PInt 42),
     logged [EvRequest (route_request (PInt 1) (PInt 1) (PInt 1) (PInt 0)
                          (PStr "token"))] example_world).
Proof.
  apply (get_distance_total_distance example_service (PInt 1) (PInt 1)
           (PInt 1) (PInt 0) (PStr "token") example_world 200
           [("route_summary", PDict [("total_distance", PInt 42)])]
           [("total_distance", PInt 42)] (PInt 42)).
  - reflexivity.
  - lia.
  - reflexivity.
  - reflexivity.
Defined.

(** ** More on [nearest_loc] *)

Lemma argmin_scan_first_nan (l : list float) (mp : float) (m i k : nat) :
  nth_error l k = Some nan ->
  (forall j x, j < k -> nth_error l j = Some x -> is_nan x = false) ->
  argmin_scan mp m i l = i + k.
Proof.
  revert mp m i k. induction l as [|x l IH]; intros mp m i k Hk Hbefore.
  - destruct k; discriminate.
  - destruct k as [|k]; simpl in Hk.
    + injection Hk as ->. simpl.
      unfold SFleb. rewrite (FloatOrder.SFcompare_nan_r mp). simpl. lia.
    + assert (Hx : is_nan x = false) by (apply (Hbefore 0 x); [lia|reflexivity]).
      assert (Hrest : forall j y, j < k -> nth_error l j = Some y ->
                        is_nan y = false).
      { intros j y Hj Hy. apply (Hbefore (S j) y); [lia | exact Hy]. }
      simpl. rewrite Hx.
      destruct (negb (SFleb mp x)); rewrite (IH _ _ _ k Hk Hrest); lia.
Qed.

Lemma np_argmin_first_nan (a : list float) (k : nat) :
  nth_error a k = Some nan ->
  (forall j x, j < k -> nth_error a j = Some x -> is_nan x = false) ->
  np_argmin a = Ok k.
Proof.
  intros Hk Hbefore. destruct a as [|x l]; [destruct k; discriminate|].
  destruct k as [|k]; simpl in Hk.
  - injection Hk as ->. reflexivity.
  - simpl.
    rewrite (Hbefore 0 x) by (try lia; reflexivity).
    rewrite (argmin_scan_first_nan l x 0 1 k Hk); [reflexivity|].
    intros j y Hj Hy. apply (Hbefore (S j) y); [lia | exact Hy].
Qed.

Section NearestLocFacts.

Variable haversine : pyval * pyval -> pyval * pyval -> result float.

(** X6. A NaN distance wins: when [haversine] gives NaN for some candidate
    (and returns for every one), [nearest_loc] returns the first candidate
    whose distance is NaN, whatever the other distances are, and its
    within-1km value is false. *)
Theorem nearest_loc_nan_wins (hdb_lat hdb_lon : pyval) (loc_df : DataFrame)
    (k : nat) (row : list pyval) :
  has_column loc_df "Address" ->
  has_column loc_df "Lat" ->
  has_column loc_df "Long" ->
  distances_defined haversine (hdb_lat, hdb_lon) loc_df ->
  let dist := distance_to haversine (hdb_lat, hdb_lon) loc_df in
  nth_error (df_rows loc_df) k = Some row ->
  is_nan (dist row) = true ->
  (forall j row', j < k -> nth_error (df_rows loc_df) j = Some row' ->
     is_nan (dist row') = false) ->
  nearest_loc haversine hdb_lat hdb_lon loc_df
  = Ok (cell loc_df row "Address", cell loc_df row "Lat",
        cell loc_df row "Long", Some false).
Proof.
  intros Ha Hlat Hlong Hdef dist Hrow Hnan Hbefore.
  unfold nearest_loc.
  rewrite (df_getitem_cells loc_df "Lat" Hlat),
    (df_getitem_cells loc_df "Long" Hlong).
  cbn [Res.bind]. rewrite combine_map.
  rewrite (mapM_map_total _ _ dist).
  2:{ intros r Hr. destruct (Hdef r Hr) as [d Hd].
      unfold dist, distance_to. unfold location in *. rewrite Hd. reflexivity. }
  cbn [Res.bind].
  assert (Hd : dist row = nan) by (apply FloatBool.is_nan_true; exact Hnan).
  rewrite (np_argmin_first_nan (map dist (df_rows loc_df)) k).
  - cbn [Res.bind]. unfold df_iloc. rewrite Hrow. cbn [Res.bind].
    rewrite !series_getitem_cell by assumption. cbn [Res.bind].
    rewrite (nth_map_nth_error dist _ _ _ nan Hrow), Hd. reflexivity.
  - rewrite nth_error_map, Hrow. simpl. now rewrite Hd.
  - intros j x Hj Hx. rewrite nth_error_map in Hx.
    destruct (nth_error (df_rows loc_df) j) as [r|] eqn:Er; [|discriminate].
    injection Hx as <-. eapply Hbefore; eauto.
Qed.

(** X7. A candidate frame without one of its columns makes [nearest_loc]
    raise [KeyError] on the label: on [Lat] or [Long] before any distance is
    computed, on [Address] once the nearest row has been found. *)
Theorem nearest_loc_missing_column (hdb_lat hdb_lon : pyval) (loc_df : DataFrame) :
  (~ has_column loc_df "Lat" ->
   nearest_loc haversine hdb_lat hdb_lon loc_df = Raise (KeyError "Lat")) /\
  (has_column loc_df "Lat" -> ~ has_column loc_df "Long" ->
   nearest_loc haversine hdb_lat hdb_lon loc_df = Raise (KeyError "Long")) /\
  (has_column loc_df "Lat" -> has_column loc_df "Long" ->
   ~ has_column loc_df "Address" ->
   distances_defined haversine (hdb_lat, hdb_lon) loc_df ->
   df_rows loc_df <> [] ->
   nearest_loc haversine hdb_lat hdb_lon loc_df = Raise (KeyError "Address")).
Proof.
  split; [|split].
  - intros H. unfold nearest_loc, df_getitem.
    rewrite (index_of_not_In _ _ H). reflexivity.
  - intros Hlat H. unfold nearest_loc.
    rewrite (df_getitem_cells loc_df "Lat" Hlat). cbn [Res.bind].
    unfold df_getitem. rewrite (index_of_not_In _ _ H). reflexivity.
  - intros Hlat Hlong H Hdef Hne. unfold nearest_loc.
    rewrite (df_getitem_cells loc_df "Lat" Hlat),
      (df_getitem_cells loc_df "Long" Hlong).
    cbn [Res.bind]. rewrite combine_map.
    rewrite (mapM_map_total _ _
               (distance_to haversine (hdb_lat, hdb_lon) loc_df)).
    2:{ intros r Hr. destruct (Hdef r Hr) as [d Hd].
        unfold distance_to. unfold location in *. rewrite Hd. reflexivity. }
    cbn [Res.bind].
    destruct (np_argmin_first_min
                (map (distance_to haversine (hdb_lat, hdb_lon) loc_df)
                   (df_rows loc_df))) as [k [Hk [Hlt _]]].
    { destruct (df_rows loc_df); [congruence | discriminate]. }
    rewrite Hk. cbn [Res.bind]. rewrite length_map in Hlt.
    unfold df_iloc.
    destruct (nth_error (df_rows loc_df) k) as [row|] eqn:Er.
    2:{ apply nth_error_None in Er. lia. }
    cbn [Res.bind]. unfold series_getitem. simpl.
    rewrite (index_of_not_In _ _ H). reflexivity.
Qed.

End NearestLocFacts.

(** Witness of X5: a service that answers with a JSON list. *)
Lemma get_distance_wrong_shape_witness :
  get_distance list_service (PInt 1) (PInt 1) (PInt 1) (PInt 0)
    (PStr "token") example_world
  = (Ok PNone,
     logged [EvRequest (route_request (PInt 1) (PInt 1) (PInt 1) (PInt 0)
                          (PStr "token"))] example_world).
Proof.
  apply (get_distance_wrong_shape list_service (PInt 1) (PInt 1)
           (PInt 1) (PInt 0) (PStr "token") example_world 200 (PList [])).
  - reflexivity.
  - intros d H. discriminate.
Defined.

(** Witness of X6: with a distance that is NaN everywhere the first
    candidate is returned. *)
Lemma nearest_loc_nan_wins_witness :
  nearest_loc nan_distance (PInt 0) (PInt 0) example_candidates
  = Ok (PStr "A", PInt 5, PInt 5, Some false).
Proof.
  apply (nearest_loc_nan_wins nan_distance (PInt 0) (PInt 0)
           example_candidates 0 [PStr "A"; PInt 5; PInt 5]).
  - unfold has_column. simpl. tauto.
  - unfold has_column. simpl. tauto.
  - unfold has_column. simpl. tauto.
  - intros row _. eexists. reflexivity.
  - reflexivity.
  - reflexivity.
  - intros j row' Hj. lia.
Defined.

(** ** [engineer_distance_features], whatever happens *)
Section EngineerFacts.

Variable haversine : pyval * pyval -> pyval * pyval -> result float.
Variable routing_service : list event -> request -> http_outcome.
Variables mrts malls schools : ref.
Variable api_token : pyval.

Lemma walk_request_route (a b c d : pyval) :
  is_walk_request api_token (EvRequest (route_request a b c d api_token)).
Proof. eexists. split; [reflexivity|]. repeat split. Qed.

(** One pass of the loop body: no, one or two requests, and nothing else. *)
Lemma enrich_step_any (acc : features) (hdb_lat hdb_long : pyval) (w : world) :
  exists evs,
    snd (enrich_step haversine routing_service mrts malls schools api_token
           acc hdb_lat hdb_long w) = logged evs w /\
    length evs <= 2 /\
    Forall (is_walk_request api_token) evs /\
    (forall acc',
       fst (enrich_step haversine routing_service mrts malls schools api_token
              acc hdb_lat hdb_long w) = Ok acc' ->
       exists e, acc' = extend acc e).
Proof.
  unfold enrich_step, St.bind, St.deref, St.lift, St.ret.
  destruct (nearest_loc haversine hdb_lat hdb_long (heap w mrts))
    as [[[[mrt la] lo] n1]|e1].
  2:{ exists []. simpl. rewrite logged_nil.
      repeat split; auto. intros acc' H. discriminate. }
  rewrite get_distance_eval. simpl heap.
  destruct (nearest_loc haversine hdb_lat hdb_long (heap w malls))
    as [[[[mall la2] lo2] n2]|e2].
  2:{ eexists. simpl. split; [reflexivity|]. split; [simpl; lia|].
      split; [repeat constructor; apply walk_request_route|].
      intros acc' H. discriminate. }
  rewrite get_distance_eval. simpl heap. rewrite logged_logged.
  destruct (nearest_loc haversine hdb_lat hdb_long (heap w schools))
    as [[[[school la3] lo3] s1]|e3].
  2:{ eexists. simpl. split; [reflexivity|]. split; [simpl; lia|].
      split; [repeat constructor; apply walk_request_route|].
      intros acc' H. discriminate. }
  eexists. simpl. split; [reflexivity|]. split; [simpl; lia|].
  split; [repeat constructor; apply walk_request_route|].
  intros acc' [= <-].
  exists {| e_mrt := mrt; e_mrt_at := (la, lo);
            e_mrt_dist := distance_of
              (routing_service (trace w)
                 (route_request hdb_lat hdb_long la lo api_token));
            e_mall := mall; e_mall_at := (la2, lo2);
            e_mall_dist := distance_of
              (routing_service
                 (trace w ++ [EvRequest (route_request hdb_lat hdb_long la lo
                                           api_token)])
                 (route_request hdb_lat hdb_long la2 lo2 api_token));
            e_school := school; e_school_1km := s1 |}.
  reflexivity.
Qed.

Lemma enrich_loop_any (ps : list (pyval * pyval)) (acc : features) (w : world) :
  exists evs,
    snd (enrich_loop haversine routing_service mrts malls schools api_token
           acc ps w) = logged evs w /\
    length evs <= 2 * length ps /\
    Forall (is_walk_request api_token) evs /\
    (forall acc',
       fst (enrich_loop haversine routing_service mrts malls schools api_token
              acc ps w) = Ok acc' ->
       exists es, length es = length ps /\ acc' = fold_left extend es acc).
Proof.
  revert acc w. induction ps as [|[lat long] ps IH]; intros acc w.
  - exists []. simpl. rewrite logged_nil. repeat split; auto.
    intros acc' [= <-]. exists []. auto.
  - destruct (enrich_step_any acc lat long w) as [evs [Hw [Hlen [HP Hacc]]]].
    simpl. unfold St.bind.
    destruct (enrich_step haversine routing_service mrts malls schools
                api_token acc lat long w) as [[acc1|e] w1]; simpl in Hw, Hacc.
    + subst w1.
      destruct (IH acc1 (logged evs w)) as [evs' [Hw' [Hlen' [HP' Hacc']]]].
      exists (evs ++ evs'). rewrite Hw', logged_logged.
      split; [reflexivity|]. split; [rewrite length_app; simpl; lia|].
      split; [apply Forall_app; auto|].
      intros acc' H. destruct (Hacc' acc' H) as [es [Hes ->]].
      destruct (Hacc acc1 eq_refl) as [e ->].
      exists (e :: es). simpl. auto.
    + exists evs. simpl. rewrite Hw.
      split; [reflexivity|]. split; [lia|]. split; [exact HP|].
      intros acc' H. discriminate.
Qed.

(** An assignment of as many values as the frame has rows goes through,
    whether the label is new or not, and keeps the number of rows. *)
Lemma assign_column_any (r : ref) (name : string) (values : list pyval)
    (w : world) :
  length values = df_len (heap w r) ->
  exists df',
    assign_column r name values w = (Ok tt, updated r df' w) /\
    df_len df' = df_len (heap w r).
Proof.
  intros Hlen.
  unfold assign_column, St.bind, St.deref, St.lift, St.store, df_setitem.
  rewrite Hlen, Nat.eqb_refl. simpl.
  unfold df_len in *.
  destruct (index_of name (df_columns (heap w r))) as [j|]; eexists;
    (split; [reflexivity|]); simpl; now apply zip_with_length.
Qed.

Lemma engineer_any (hdbs : ref) (w : world) :
  exists evs,
    length evs <= 2 * df_len (heap w hdbs) /\
    Forall (is_walk_request api_token) evs /\
    ((exists e,
        engineer_distance_features haversine routing_service
          hdbs mrts malls schools api_token w = (Raise e, logged evs w)) \/
     (exists w',
        engineer_distance_features haversine routing_service
          hdbs mrts malls schools api_token w = (Ok hdbs, w') /\
        trace w' = trace w ++ evs /\
        next_ref w' = next_ref w /\
        out_file w' = out_file w /\
        (forall r, r <> hdbs -> heap w' r = heap w r))).
Proof.
  unfold engineer_distance_features, St.bind, St.deref, St.lift, St.ret.
  set (df := heap w hdbs).
  destruct (df_getitem df "Lat") as [lat|e] eqn:Elat.
  2:{ exists []. rewrite logged_nil. split; [simpl; lia|]. split; [constructor|].
      left. eauto. }
  destruct (df_getitem df "Long") as [long|e] eqn:Elong.
  2:{ exists []. rewrite logged_nil. split; [simpl; lia|]. split; [constructor|].
      left. eauto. }
  assert (Hlat : length lat = df_len df).
  { unfold df_getitem in Elat.
    destruct (index_of "Lat" (df_columns df)); [|discriminate].
    injection Elat as <-. apply length_map. }
  assert (Hlong : length long = df_len df).
  { unfold df_getitem in Elong.
    destruct (index_of "Long" (df_columns df)); [|discriminate].
    injection Elong as <-. apply length_map. }
  destruct (enrich_loop_any (combine lat long) no_features w)
    as [evs [Hw [Hlen [HP Hacc]]]].
  rewrite length_combine, Hlat, Hlong, Nat.min_id in Hlen.
  exists evs. split; [exact Hlen|]. split; [exact HP|].
  destruct (enrich_loop haversine routing_service mrts malls schools
              api_token no_features (combine lat long) w)
    as [[acc|e] w0]; simpl in Hw, Hacc; subst w0.
  2:{ left. eauto. }
  right.
  destruct (Hacc acc eq_refl) as [es [Hes ->]].
  rewrite length_combine, Hlat, Hlong, Nat.min_id in Hes.
  destruct (features_fold es no_features) as [F1 [F2 [F3 [F4 [F5 F6]]]]].
  simpl in F1, F2, F3, F4, F5, F6. rewrite F1, F2, F3, F4, F5, F6.
  set (w0 := logged evs w).
  destruct (assign_column_any hdbs "Nearest_MRT" (map e_mrt es) w0)
    as [d1 [A1 L1]]; [rewrite length_map; exact Hes|].
  set (w1 := updated hdbs d1 w0) in *.
  assert (H1 : heap w1 hdbs = d1) by apply heap_updated.
  destruct (assign_column_any hdbs "Distance_MRT" (map e_mrt_dist es) w1)
    as [d2 [A2 L2]]; [rewrite length_map, H1, L1; exact Hes|].
  set (w2 := updated hdbs d2 w1) in *.
  assert (H2 : heap w2 hdbs = d2) by apply heap_updated.
  destruct (assign_column_any hdbs "Nearest_Mall" (map e_mall es) w2)
    as [d3 [A3 L3]]; [rewrite length_map, H2, L2, H1, L1; exact Hes|].
  set (w3 := updated hdbs d3 w2) in *.
  assert (H3 : heap w3 hdbs = d3) by apply heap_updated.
  destruct (assign_column_any hdbs "Distance_Mall" (map e_mall_dist es) w3)
    as [d4 [A4 L4]];
    [rewrite length_map, H3, L3, H2, L2, H1, L1; exact Hes|].
  set (w4 := updated hdbs d4 w3) in *.
  assert (H4 : heap w4 hdbs = d4) by apply heap_updated.
  destruct (assign_column_any hdbs "Nearest_Pri_Sch" (map e_school es) w4)
    as [d5 [A5 L5]];
    [rewrite length_map, H4, L4, H3, L3, H2, L2, H1, L1; exact Hes|].
  set (w5 := updated hdbs d5 w4) in *.
  assert (H5 : heap w5 hdbs = d5) by apply heap_updated.
  destruct (assign_column_any hdbs "Within_1km_of_Pri"
              (map (fun e => within_cell (e_school_1km e)) es) w5)
    as [d6 [A6 L6]];
    [rewrite length_map, H5, L5, H4, L4, H3, L3, H2, L2, H1, L1; exact Hes|].
  exists (updated hdbs d6 w5).
  rewrite A1, A2, A3, A4, A5, A6.
  split; [reflexivity|]. split; [reflexivity|]. split; [reflexivity|].
  split; [reflexivity|].
  intros r Hr. unfold w5, w4, w3, w2, w1.
  rewrite !heap_updated_other by exact Hr. reflexivity.
Qed.

(** X8. The caller's frame gets all six columns or none: when
    [engineer_distance_features] raises (a coordinate column is missing, a
    lookup fails), every DataFrame object is as it was before the call, the
    caller's included. *)
Theorem engineer_all_or_nothing (hdbs : ref) (w : world) (e : exn) (w' : world) :
  engineer_distance_features haversine routing_service
    hdbs mrts malls schools api_token w = (Raise e, w') ->
  forall r, heap w' r = heap w r.
Proof.
  intros Hrun r.
  destruct (engineer_any hdbs w) as [evs [_ [_ [[e' H]|[w1 [H _]]]]]];
    rewrite H in Hrun; [|discriminate].
  injection Hrun as _ <-. reflexivity.
Qed.

(** X9. Whatever its outcome, [engineer_distance_features] writes nothing to
    the output file, creates no object and changes no object but the
    caller's frame; what it adds to the trace are requests for a walking
    route with the given token, at most two per subject; when it returns, it
    returns the reference it was given. *)
Theorem engineer_frame (hdbs : ref) (w : world) :
  let run := engineer_distance_features haversine routing_service
               hdbs mrts malls schools api_token w in
  out_file (snd run) = out_file w /\
  next_ref (snd run) = next_ref w /\
  (forall r, r <> hdbs -> heap (snd run) r = heap w r) /\
  (exists evs,
     trace (snd run) = trace w ++ evs /\
     Forall (is_walk_request api_token) evs /\
     length evs <= 2 * df_len (heap w hdbs)) /\
  (forall r, fst run = Ok r -> r = hdbs).
Proof.
  cbv zeta.
  destruct (engineer_any hdbs w)
    as [evs [Hlen [HP [[e H]|[w1 [H [Ht [Hn [Ho Hh]]]]]]]]]; rewrite H; simpl.
  - repeat split; auto.
    + exists evs. auto.
    + intros r Hr. discriminate.
  - repeat split; auto.
    + exists evs. auto.
    + intros r [= <-]. reflexivity.
Qed.

End EngineerFacts.

(** Witness of X8: the school table is empty. *)
Lemma engineer_all_or_nothing_witness :
  exists w',
    engineer_distance_features grid_distance example_service
      0 1 2 3 (PStr "token") (updated 3 no_candidates example_world)
    = (Raise ValueError, w') /\
    heap w' 0 = example_hdbs.
Proof.
  eexists. split; [vm_compute; reflexivity|].
  apply (engineer_all_or_nothing grid_distance example_service 1 2 3
           (PStr "token") 0 (updated 3 no_candidates example_world)
           ValueError _ eq_refl 0).
Defined.

(** ** More on the batch loop *)

Lemma slept_app (a b : list event) : (slept (a ++ b) = slept a + slept b)%Z.
Proof.
  induction a as [|ev a IH]; simpl; [reflexivity|].
  destruct ev; rewrite IH; lia.
Qed.

Lemma slept_requests (api_token : pyval) (ps : list (pyval * pyval))
    (es : list enrichment) :
  slept (all_requests api_token ps es) = 0%Z.
Proof.
  unfold all_requests. revert es.
  induction ps as [|p ps IH]; intros [|e es]; simpl; auto.
Qed.

Lemma line_cells_batch_lines (batch : DataFrame) (es : list enrichment) :
  df_wf batch ->
  length es = length (df_rows batch) ->
  map (line_cells (length (df_columns batch))) (batch_lines batch es)
  = df_rows batch.
Proof.
  unfold batch_lines, enriched_frame, df_wf. simpl.
  generalize (length (df_columns batch)). intros c.
  generalize (df_rows batch). intros rows. revert es.
  induction rows as [|row rows IH]; intros [|e es] Hwf Hlen; simpl;
    try discriminate; auto.
  inversion Hwf as [|? ? Hrow Hrest]; subst.
  rewrite IH by (auto; simpl in Hlen; lia).
  f_equal. rewrite firstn_app, Nat.sub_diag. simpl.
  rewrite firstn_all, app_nil_r. reflexivity.
Qed.

Lemma batch_of_wf (batch_size : nat) (df : DataFrame) (i : nat) :
  df_wf df -> df_wf (batch_of batch_size df i).
Proof.
  unfold df_wf. rewrite batch_of_rows. simpl. intros H.
  apply Forall_forall. intros row Hrow.
  rewrite Forall_forall in H. apply H.
  eapply In_skipn, In_firstn, Hrow.
Qed.

Lemma last_app_r {A} (a b : list A) (d : A) :
  b <> [] -> last (a ++ b) d = last b d.
Proof.
  intros Hb. induction a as [|x a IH]; [reflexivity|].
  simpl. destruct (a ++ b) eqn:E; [|exact IH].
  apply app_eq_nil in E. destruct E as [_ E]. contradiction.
Qed.

Lemma lines_of_batches (c : nat) (bs : list DataFrame)
    (ess : list (list enrichment)) :
  Forall2 (fun batch es => length es = length (df_rows batch)) bs ess ->
  Forall (fun b => df_wf b /\ length (df_columns b) = c) bs ->
  map (line_cells c) (concat (zip_with batch_lines bs ess))
  = concat (map df_rows bs) /\
  Forall (fun l => exists cells, l = DataLine cells /\ length cells = c + 6)
    (concat (zip_with batch_lines bs ess)).
Proof.
  intros Hall. induction Hall as [|b es bs' ess' Hlen Hall IH]; intros Hwf.
  - split; [reflexivity | constructor].
  - inversion Hwf as [|? ? [Hb Hc] Hrest]; subst.
    destruct (IH Hrest) as [IH1 IH2]. simpl. split.
    + rewrite map_app, IH1, line_cells_batch_lines; auto.
    + apply Forall_app. split; [|exact IH2].
      unfold batch_lines, enriched_frame. simpl.
      apply Forall_forall. intros l Hl.
      apply in_map_iff in Hl. destruct Hl as [cells [<- Hcells]].
      exists cells. split; [reflexivity|].
      clear - Hb Hlen Hcells. unfold df_wf in Hb.
      revert es Hlen Hcells.
      induction Hb as [|row rows Hrow Hb IHb]; intros [|e es] Hlen Hcells;
        simpl in *; try contradiction.
      destruct Hcells as [<-|Hcells].
      * rewrite length_app, Hrow. reflexivity.
      * eapply IHb; eauto.
Qed.

Section BatchLoopFacts.

Variable haversine : pyval * pyval -> pyval * pyval -> result float.
Variable routing_service : list event -> request -> http_outcome.
Variable batch_size : nat.
Variables hdbs mrts malls schools : ref.
Variable api_token : pyval.

(** A run that can go through, with what it leaves behind. *)
Lemma batch_loop_run (w : world) :
  ready_to_run haversine hdbs mrts malls schools w ->
  let bs := batches batch_size (heap w hdbs) in
  exists ess w',
    Forall2 (fun batch es => length es = length (df_rows batch)) bs ess /\
    batch_loop haversine routing_service batch_size hdbs mrts malls schools
      api_token w = (Ok tt, w') /\
    tables_in_place hdbs mrts malls schools
      (heap w hdbs) (heap w mrts) (heap w malls) (heap w schools) w' /\
    trace w' = trace w ++ concat (zip_with (batch_events api_token) bs ess) /\
    out_file w' = out_file w ++ concat (zip_with batch_lines bs ess).
Proof.
  intros [Hlat [Hlong [Hlook [Hnew [Bh [Bm [Bl Bs]]]]]]] bs.
  destruct (for_range_from_eval haversine routing_service batch_size
              hdbs mrts malls schools api_token
              (heap w hdbs) (heap w mrts) (heap w malls) (heap w schools)
              Hlat Hlong Hlook Hnew
              (BATCHES batch_size (df_len (heap w hdbs))) 0 w)
    as [ess [w' [Hall [Hrun [Hw' [Htr Hout]]]]]].
  { unfold tables_in_place. repeat split; auto. }
  exists ess, w'. repeat split; auto; apply Hw'.
Qed.

(** X10. A run that can go through appends one data line per subject, in
    the order of the subject table and with no header line: every appended
    line begins with the cells of its subject, followed by six more. *)
Theorem batch_loop_output (w : world) :
  1 <= batch_size ->
  df_wf (heap w hdbs) ->
  ready_to_run haversine hdbs mrts malls schools w ->
  exists w' lines,
    batch_loop haversine routing_service batch_size hdbs mrts malls schools
      api_token w = (Ok tt, w') /\
    out_file w' = out_file w ++ lines /\
    length lines = df_len (heap w hdbs) /\
    count is_header lines = 0 /\
    map (line_cells (length (df_columns (heap w hdbs)))) lines
    = df_rows (heap w hdbs) /\
    Forall (fun l => exists cells,
              l = DataLine cells /\
              length cells = length (df_columns (heap w hdbs)) + 6) lines.
Proof.
  intros HB Hwf Hready.
  destruct (batch_loop_run w Hready) as [ess [w' [Hall [Hrun [_ [_ Hout]]]]]].
  set (df := heap w hdbs) in *.
  exists w', (concat (zip_with batch_lines (batches batch_size df) ess)).
  destruct (lines_of_batches (length (df_columns df))
              (batches batch_size df) ess Hall) as [Hcells Hshape].
  { unfold batches. apply Forall_forall. intros b Hb.
    apply in_map_iff in Hb. destruct Hb as [i [<- _]].
    split; [apply batch_of_wf; exact Hwf | reflexivity]. }
  rewrite (concat_batch_rows batch_size df HB) in Hcells.
  split; [exact Hrun|]. split; [exact Hout|]. split; [|split; [|split]].
  - unfold df_len. rewrite <- Hcells. now rewrite length_map.
  - apply batch_lines_all_headerless.
  - exact Hcells.
  - exact Hshape.
Qed.

(** X11. A run that can go through, with a batch size of at least 1, works
    on copies: afterwards the subject table and the three candidate tables
    are the objects they were, with the frames they had. *)
Theorem batch_loop_keeps_tables (w : world) :
  1 <= batch_size ->
  ready_to_run haversine hdbs mrts malls schools w ->
  exists w',
    batch_loop haversine routing_service batch_size hdbs mrts malls schools
      api_token w = (Ok tt, w') /\
    heap w' hdbs = heap w hdbs /\ heap w' mrts = heap w mrts /\
    heap w' malls = heap w malls /\ heap w' schools = heap w schools.
Proof.
  intros _ Hready.
  destruct (batch_loop_run w Hready)
    as [ess [w' [_ [Hrun [[Hh [Hm [Hl [Hs _]]]] _]]]]].
  exists w'. auto.
Qed.

(** X12. A run that can go through, with a batch size of at least 1,
    sleeps 30 seconds once per batch, the last batch included:
    [30 * ceil(n / batch_size)] seconds in all for [n] subjects, and when
    there is a subject the run ends on a sleep. *)
Theorem batch_loop_cooldowns (w : world) :
  1 <= batch_size ->
  ready_to_run haversine hdbs mrts malls schools w ->
  exists w' evs,
    batch_loop haversine routing_service batch_size hdbs mrts malls schools
      api_token w = (Ok tt, w') /\
    trace w' = trace w ++ evs /\
    count is_sleep evs = BATCHES batch_size (df_len (heap w hdbs)) /\
    slept evs
    = (30 * Z.of_nat (BATCHES batch_size (df_len (heap w hdbs))))%Z /\
    BATCHES batch_size (df_len (heap w hdbs))
    = df_len (heap w hdbs) / batch_size
      + (if df_len (heap w hdbs) mod batch_size =? 0 then 0 else 1) /\
    (1 <= df_len (heap w hdbs) -> last evs (EvSleep 0) = EvSleep 30).
Proof.
  intros HB Hready.
  destruct (BATCHES_bounds batch_size (df_len (heap w hdbs)) HB)
    as [Hup [_ Hceil]].
  assert (Hsome : 1 <= df_len (heap w hdbs) ->
                  1 <= BATCHES batch_size (df_len (heap w hdbs))) by nia.
  cut (exists w' evs,
    batch_loop haversine routing_service batch_size hdbs mrts malls schools
      api_token w = (Ok tt, w') /\
    trace w' = trace w ++ evs /\
    count is_sleep evs = BATCHES batch_size (df_len (heap w hdbs)) /\
    slept evs
    = (30 * Z.of_nat (BATCHES batch_size (df_len (heap w hdbs))))%Z /\
    (1 <= BATCHES batch_size (df_len (heap w hdbs)) ->
     last evs (EvSleep 0) = EvSleep 30)).
  { intros [w' [evs [H1 [H2 [H3 [H4 H5]]]]]]. exists w', evs.
    repeat split; auto. }
  clear HB Hup Hceil Hsome.
  destruct (batch_loop_run w Hready) as [ess [w' [Hall [Hrun [_ [Htr _]]]]]].
  exists w'. eexists. split; [exact Hrun|]. split; [exact Htr|].
  unfold batches in *.
  set (bs := map (batch_of batch_size (heap w hdbs))
               (seq 0 (BATCHES batch_size (df_len (heap w hdbs))))) in *.
  assert (Hn : length bs = BATCHES batch_size (df_len (heap w hdbs)))
    by (unfold bs; now rewrite length_map, length_seq).
  rewrite <- Hn. clear Hn Hrun Htr. clearbody bs.
  induction Hall as [|b es bs' ess' Hlen Hall [IH1 [IH2 IH3]]].
  - simpl. repeat split; auto. intros H. lia.
  - cbn [zip_with concat length]. rewrite count_app, slept_app, IH1, IH2.
    unfold batch_events at 1 2.
    rewrite count_app, slept_app, slept_requests.
    destruct (all_requests_count api_token (points b) es) as [_ Hs].
    { rewrite Hlen. unfold points. now rewrite length_map. }
    rewrite Hs. split; [reflexivity|]. split.
    { change (slept [EvAppend (batch_lines b es); EvSleep 30]) with (30 + 0)%Z.
      rewrite Nat2Z.inj_succ. lia. }
    intros _. destruct bs' as [|b' bs''].
    + inversion Hall; subst. simpl. rewrite app_nil_r. unfold batch_events.
      change [EvAppend (batch_lines b es); EvSleep 30]
        with ([EvAppend (batch_lines b es)] ++ [EvSleep 30]).
      rewrite app_assoc. apply last_last.
    + rewrite last_app_r; [apply IH3; simpl; lia|].
      inversion Hall; subst. simpl. unfold batch_events. intros H.
      apply app_eq_nil in H. destruct H as [H _].
      apply app_eq_nil in H. destruct H as [_ H]. discriminate.
Qed.

(** X13. With no subject the loop does nothing at all, whatever the batch
    size of at least 1 and the other tables: it returns at once and the
    world is as it was. *)
Theorem batch_loop_no_subject (w : world) :
  1 <= batch_size ->
  df_rows (heap w hdbs) = [] ->
  batch_loop haversine routing_service batch_size hdbs mrts malls schools
    api_token w = (Ok tt, w).
Proof.
  intros HB H. unfold batch_loop, St.bind, St.deref, df_len. rewrite H.
  unfold BATCHES. simpl length.
  replace ((0 + batch_size - 1) / batch_size) with 0; [reflexivity|].
  symmetry. apply Nat.div_small. lia.
Qed.

End BatchLoopFacts.

(** ** More on the cell transforms of [clean_data] *)
Module CleaningMore.
Import Cleaning DataCleaning CleaningFacts.

Lemma prefix_cut (sub a b : string) (c : ascii) :
  no_space sub = true -> is_space c = true ->
  String.prefix sub (a ++ String c b) = String.prefix sub a.
Proof.
  intros Hsub Hc. revert sub Hsub.
  induction a as [|x a IH]; intros [|s sub] Hsub; simpl; try reflexivity.
  - simpl in Hsub. apply andb_true_iff in Hsub. destruct Hsub as [Hs _].
    destruct (ascii_dec s c) as [->|Hne]; [|reflexivity].
    rewrite Hc in Hs. discriminate.
  - simpl in Hsub. apply andb_true_iff in Hsub. destruct Hsub as [_ Hsub].
    destruct (ascii_dec s x); [apply IH; exact Hsub | reflexivity].
Qed.

Lemma prefix_nil_r (sub : string) : sub <> "" -> String.prefix sub "" = false.
Proof. destruct sub; [congruence | reflexivity]. Qed.

Lemma contains_nil_r (sub : string) : sub <> "" -> contains sub "" = false.
Proof. destruct sub; [congruence | reflexivity]. Qed.

Lemma contains_cut (sub a b : string) (c : ascii) :
  no_space sub = true -> sub <> "" -> is_space c = true ->
  contains sub (a ++ String c b) = contains sub a || contains sub b.
Proof.
  intros Hsub Hne Hc. induction a as [|x a IH].
  - rewrite contains_nil_r by exact Hne.
    change ("" ++ String c b)%string with (String c b).
    cbn [contains].
    rewrite (prefix_cut sub "" b c Hsub Hc : String.prefix sub (String c b) = _).
    now rewrite prefix_nil_r.
  - change (String x a ++ String c b)%string with (String x (a ++ String c b)).
    cbn [contains].
    rewrite (prefix_cut sub (String x a) b c Hsub Hc
             : String.prefix sub (String x (a ++ String c b)) = _).
    rewrite IH. now rewrite orb_assoc.
Qed.

(** A word without whitespace is in a text exactly when it is in one of
    its tokens. *)
Lemma contains_split_from (sub x cur : string) :
  no_space sub = true -> sub <> "" ->
  contains sub (cur ++ x) = existsb (contains sub) (split_from cur x).
Proof.
  intros Hsub Hne. revert cur. induction x as [|c x IH]; intros cur.
  - rewrite append_nil_r. simpl.
    destruct (String.eqb cur "") eqn:E; simpl.
    + apply String.eqb_eq in E. subst. now apply contains_nil_r.
    + now rewrite orb_false_r.
  - cbn [split_from]. destruct (is_space c) eqn:Ec.
    + rewrite (contains_cut sub cur x c Hsub Hne Ec).
      pose proof (IH ""%string) as IH0.
      change ("" ++ x)%string with x in IH0.
      destruct (String.eqb cur "") eqn:E; cbn [existsb]; rewrite <- IH0.
      * apply String.eqb_eq in E. subst.
        now rewrite (contains_nil_r sub Hne).
      * reflexivity.
    + rewrite <- IH, append_assoc. reflexivity.
Qed.

Lemma contains_month_split (x : string) :
  contains "month" x = existsb (contains "month") (split x).
Proof.
  unfold split. rewrite <- contains_split_from; [reflexivity|reflexivity|].
  discriminate.
Qed.

(** X14. Only the tokens matter: two texts with the same
    whitespace-separated tokens, whatever their spacing, give the same
    result or the same error. *)
Theorem remaining_lease_tokens (x x' : string) :
  split x = split x' -> remaining_lease x = remaining_lease x'.
Proof.
  intros H. unfold remaining_lease.
  rewrite !contains_month_split, H. reflexivity.
Qed.

(** X15. What the transform rejects: a text without any token raises
    [IndexError]; a first token that is no integer raises [ValueError]; a
    text that has [month] in it but fewer than three tokens raises
    [IndexError], so a lease given in months only is an error. *)
Theorem remaining_lease_errors (x : string) :
  (split x = [] -> remaining_lease x = Raise IndexError) /\
  (forall t rest, split x = t :: rest -> py_int t = Raise ValueError ->
     remaining_lease x = Raise ValueError) /\
  (forall t rest y, split x = t :: rest -> py_int t = Ok y ->
     contains "month" x = true -> length rest < 2 ->
     remaining_lease x = Raise IndexError).
Proof.
  unfold remaining_lease. split; [|split].
  - intros ->. reflexivity.
  - intros t rest -> Ht. cbn [list_getitem nth_error Res.bind].
    rewrite Ht. reflexivity.
  - intros t rest y -> Ht Hm Hlen. cbn [list_getitem nth_error Res.bind].
    rewrite Ht, Hm. cbn [Res.bind].
    destruct rest as [|a [|b rest]]; simpl in Hlen; try lia; reflexivity.
Qed.

(** X16. Without [month] in the text only the first token counts: the
    result is the integer the text begins with, whatever follows it, for an
    integer of absolute value up to [2^53]. *)
Theorem remaining_lease_years_only (x t : string) (rest : list string) (y : Z) :
  split x = t :: rest ->
  py_int t = Ok y ->
  (Z.abs y <= 2 ^ 53)%Z ->
  contains "month" x = false ->
  exists q, remaining_lease x = Ok q /\ q == inject_Z y.
Proof.
  intros Hs Ht _ Hm. unfold remaining_lease. rewrite Hs.
  cbn [list_getitem nth_error Res.bind]. rewrite Ht, Hm. cbn [Res.bind].
  eexists. split; [reflexivity|].
  unfold py_round. change (10 ^ Z.of_nat 3)%Z with 1000%Z.
  rewrite (round_half_even_Z _ (y * 1000)).
  - rewrite inject_Z_mult. change (inject_Z 1000) with (1000 # 1). field.
  - rewrite inject_Z_mult. change (inject_Z 1000) with (1000 # 1).
    change (inject_Z 0) with (0 # 1). field.
Qed.

(** Witness of X16: months abbreviated. *)
Lemma remaining_lease_years_only_witness :
  exists q, remaining_lease "61 years 4 mths" = Ok q /\ q == 61.
Proof.
  apply (remaining_lease_years_only "61 years 4 mths" "61"
           ["years"; "4"; "mths"] 61).
  - vm_compute. reflexivity.
  - vm_compute. reflexivity.
  - vm_compute. discriminate.
  - vm_compute. reflexivity.
Defined.

(** Witness of X14: the same lease with other spacing. *)
Lemma remaining_lease_tokens_witness :
  remaining_lease "  61   years 4 months " = remaining_lease "61 years 4 months".
Proof.
  apply (remaining_lease_tokens "  61   years 4 months " "61 years 4 months").
  vm_compute. reflexivity.
Defined.

(** The storey and the flat type. *)
Lemma leading_digits_app (ds rest : string) :
  all_digits ds = true -> starts_with_digit rest = false ->
  leading_digits (ds ++ rest) = ds.
Proof.
  intros Hd Hr. induction ds as [|c ds IH]; simpl.
  - destruct rest as [|c rest]; [reflexivity|].
    simpl in Hr. simpl. now rewrite Hr.
  - simpl in Hd. apply andb_true_iff in Hd. destruct Hd as [Hc Hd].
    rewrite Hc, (IH Hd). reflexivity.
Qed.

(** X17. The storey is the lower bound of the range: a cell that begins
    with a numeral (of up to 15 digits) followed by something that is no
    digit (["10 TO 12"]) gives the value of that numeral; a cell that begins
    with no digit gives NaN. *)
Theorem storey_lower_bound (ds rest : string) :
  numeral ds -> String.length ds <= 15 -> starts_with_digit rest = false ->
  storey (ds ++ rest) = Some (decimal_value 0 ds) /\ storey rest = None.
Proof.
  intros [Hne Hd] _ Hr. unfold storey. split.
  - rewrite (leading_digits_app ds rest Hd Hr).
    apply String.eqb_neq in Hne. now rewrite Hne.
  - destruct rest as [|c rest]; [reflexivity|].
    simpl in Hr. simpl. now rewrite Hr.
Qed.

(** Witness of X17: the tenth to twelfth storey. *)
Lemma storey_lower_bound_witness :
  storey "10 TO 12" = Some 10%Z /\ storey " TO 12" = None.
Proof.
  apply (storey_lower_bound "10" " TO 12").
  - split; [discriminate | reflexivity].
  - simpl. lia.
  - reflexivity.
Defined.

Lemma dict_lookup_In (key : string) (d : list (string * Z)) (v : Z) :
  dict_lookup key d = Some v -> In (key, v) d.
Proof.
  induction d as [|[k v'] d IH]; simpl; [discriminate|].
  destruct (String.eqb k key) eqn:E.
  - apply String.eqb_eq in E. intros [= <-]. subst. now left.
  - intros H. right. now apply IH.
Qed.

(** X18. The flat-type codes can be read back: two flat types with the same
    code are the same flat type, the codes are the integers 0 to 6, each of
    them used, and a text that is none of the seven flat types (another
    spelling, another case) gets NaN. *)
Theorem flat_type_codes :
  (forall a b c, flat_type a = Some c -> flat_type b = Some c -> a = b) /\
  (forall a c, flat_type a = Some c -> (0 <= c <= 6)%Z) /\
  (forall c, (0 <= c <= 6)%Z -> exists a, flat_type a = Some c) /\
  (forall a, ~ In a (map fst FLAT_TYPE_MAP) -> flat_type a = None).
Proof.
  split; [|split; [|split]].
  - intros a b c Ha Hb.
    apply dict_lookup_In in Ha. apply dict_lookup_In in Hb.
    simpl in Ha, Hb.
    repeat destruct Ha as [Ha|Ha]; try contradiction;
      repeat destruct Hb as [Hb|Hb]; try contradiction; congruence.
  - intros a c Ha. apply dict_lookup_In in Ha. simpl in Ha.
    repeat destruct Ha as [Ha|Ha]; try contradiction;
      injection Ha as _ <-; lia.
  - intros c Hc.
    assert (H : (c = 0 \/ c = 1 \/ c = 2 \/ c = 3 \/ c = 4 \/ c = 5
                 \/ c = 6)%Z) by lia.
    destruct H as [->|[->|[->|[->|[->|[->| ->]]]]]].
    + exists "1 ROOM". reflexivity.
    + exists "2 ROOM". reflexivity.
    + exists "3 ROOM". reflexivity.
    + exists "4 ROOM". reflexivity.
    + exists "5 ROOM". reflexivity.
    + exists "EXECUTIVE". reflexivity.
    + exists "MULTI-GENERATION". reflexivity.
  - intros a Ha. unfold flat_type.
    induction FLAT_TYPE_MAP as [|[k v] d IH]; [reflexivity|].
    simpl in Ha |- *. destruct (String.eqb k a) eqn:E.
    + apply String.eqb_eq in E. tauto.
    + apply IH. tauto.
Qed.

End CleaningMore.

(** ** [remove_outliers] *)
Module OutlierFacts.
Import DataCleaning.

Lemma existsb_eqb_In (col : string) (cols : list string) :
  existsb (String.eqb col) cols = true <-> In col cols.
Proof.
  rewrite existsb_exists. split.
  - intros [c [Hc E]]. apply String.eqb_eq in E. now subst.
  - intros H. exists col. split; [exact H | apply String.eqb_refl].
Qed.

Lemma select_rows_filter {A} (f : A -> result bool) (g : list pyval -> A)
    (rows : list (list pyval)) (mask : list bool) :
  Res.mapM f (map g rows) = Ok mask ->
  select_rows rows mask = filter (fun row => match f (g row) with
                                             | Ok b => b
                                             | Raise _ => false
                                             end) rows /\
  forall row, In row (select_rows rows mask) -> f (g row) = Ok true.
Proof.
  revert mask. induction rows as [|row rows IH]; intros mask; simpl.
  - intros [= <-]. split; [reflexivity | contradiction].
  - destruct (f (g row)) as [b|e] eqn:E; simpl; [|discriminate].
    destruct (Res.mapM f (map g rows)) as [mask'|e]; simpl; [|discriminate].
    intros [= <-]. destruct (IH mask' eq_refl) as [IH1 IH2].
    simpl. destruct b; (split; [now rewrite IH1|]).
    + intros r [<-|Hr]; auto.
    + exact IH2.
Qed.

Lemma filter_filter {A} (p q : A -> bool) (l : list A) :
  filter q (filter p l) = filter (fun x => p x && q x) l.
Proof.
  induction l as [|x l IH]; simpl; [reflexivity|].
  destruct (p x); simpl; [destruct (q x)|]; now rewrite IH.
Qed.

Lemma In_filter {A} (p : A -> bool) (l : list A) (x : A) :
  In x (filter p l) -> In x l.
Proof. intros H. apply filter_In in H. tauto. Qed.

Section Facts.

Variable quantile : list pyval -> float -> result float.

(** One pass: the labels stay, rows are only left out, and the rows that
    stay hold a number that is not NaN in the column. *)
Lemma remove_outliers_step_spec (df df' : DataFrame) (col : string) :
  remove_outliers_step quantile df col = Ok df' ->
  df_columns df' = df_columns df /\
  (exists keep, df_rows df' = filter keep (df_rows df)) /\
  (In col (df_columns df) ->
   forall row, In row (df_rows df') ->
     exists x, as_number (cell df row col) = Ok x /\ is_nan x = false).
Proof.
  unfold remove_outliers_step.
  destruct (existsb (String.eqb col) (df_columns df)) eqn:Ecol.
  2:{ intros [= <-]. split; [reflexivity|]. split.
      - exists (fun _ => true). induction (df_rows df); simpl; congruence.
      - intros Hin. apply existsb_eqb_In in Hin. congruence. }
  apply existsb_eqb_In in Ecol.
  rewrite (df_getitem_cells df col Ecol). cbn [Res.bind].
  destruct (quantile _ f_0_25) as [q1|e]; cbn [Res.bind]; [|discriminate].
  destruct (quantile _ f_0_75) as [q3|e]; cbn [Res.bind]; [|discriminate].
  set (lower := SFsub prec emax q1 _). set (upper := SFadd prec emax q3 _).
  destruct (Res.mapM (in_bounds lower upper)
              (map (fun row => cell df row col) (df_rows df)))
    as [mask|e] eqn:Emask; cbn [Res.bind]; [|discriminate].
  intros [= <-]. simpl.
  destruct (select_rows_filter _ _ _ _ Emask) as [Hf Hin].
  split; [reflexivity|]. split; [eexists; exact Hf|].
  intros _ row Hrow. specialize (Hin row Hrow).
  unfold in_bounds in Hin.
  destruct (cell df row col) as [| b | z | x | s | l | d];
    try discriminate Hin;
    (eexists; split; [reflexivity|]);
    cbn [as_number Res.bind] in Hin; injection Hin as Hin;
    apply andb_true_iff in Hin; destruct Hin as [Hlo _];
    apply (FloatBool.leb_not_nan lower _ Hlo).
Qed.

Lemma remove_outliers_loop_spec (columns : list string) (df df' : DataFrame) :
  remove_outliers_loop quantile df columns = Ok df' ->
  df_columns df' = df_columns df /\
  (exists keep, df_rows df' = filter keep (df_rows df)) /\
  (forall col, In col columns -> In col (df_columns df) ->
   forall row, In row (df_rows df') ->
     exists x, as_number (cell df row col) = Ok x /\ is_nan x = false).
Proof.
  revert df. induction columns as [|col rest IH]; intros df; simpl.
  - intros [= <-]. split; [reflexivity|]. split.
    + exists (fun _ => true). induction (df_rows df); simpl; congruence.
    + intros col [].
  - destruct (remove_outliers_step quantile df col) as [df1|e] eqn:Estep;
      cbn [Res.bind]; [|discriminate].
    intros Hloop.
    destruct (remove_outliers_step_spec df df1 col Estep)
      as [Hc1 [[k1 Hk1] Hn1]].
    destruct (IH df1 Hloop) as [Hc2 [[k2 Hk2] Hn2]].
    split; [congruence|]. split.
    + exists (fun row => k1 row && k2 row).
      rewrite Hk2, Hk1. apply filter_filter.
    + intros c [<-|Hc] Hcol row Hrow.
      * apply Hn1; [exact Hcol|]. rewrite Hk2 in Hrow.
        eapply In_filter, Hrow.
      * destruct (Hn2 c Hc) with (row := row) as [x Hx]; auto.
        { now rewrite Hc1. }
        exists x. unfold cell in *. now rewrite <- Hc1.
Qed.

(** X19. [remove_outliers] only leaves rows out: when it returns, the
    labels are those of the input and the rows are rows of the input, in
    their input order, equal rows sharing the same fate. *)
Theorem remove_outliers_keeps_order (df df' : DataFrame) (columns : list string) :
  remove_outliers quantile df columns = Ok df' ->
  df_columns df' = df_columns df /\
  exists keep, df_rows df' = filter keep (df_rows df).
Proof.
  intros H. destruct (remove_outliers_loop_spec columns df df' H) as [H1 [H2 _]].
  auto.
Qed.

(** X20. A row that survives has a number in every listed column the frame
    has: rows whose cell there is NaN are always left out, whatever the
    quantiles are. *)
Theorem remove_outliers_drops_nan (df df' : DataFrame) (columns : list string) :
  remove_outliers quantile df columns = Ok df' ->
  forall col, In col columns -> In col (df_columns df) ->
  forall row, In row (df_rows df') ->
    exists x, as_number (cell df row col) = Ok x /\ is_nan x = false.
Proof.
  intros H. apply (remove_outliers_loop_spec columns df df' H).
Qed.

(** X21. Labels the frame does not have are passed over in silence: they
    can be struck from the list without changing the outcome, and a list of
    such labels only gives the frame back. *)
Theorem remove_outliers_skips_unknown (df : DataFrame) (columns : list string) :
  remove_outliers quantile df columns
  = remove_outliers quantile df
      (filter (fun col => existsb (String.eqb col) (df_columns df)) columns) /\
  ((forall col, In col columns -> ~ In col (df_columns df)) ->
   remove_outliers quantile df columns = Ok df).
Proof.
  unfold remove_outliers.
  assert (Hgen : forall cols d, df_columns d = df_columns df ->
            remove_outliers_loop quantile d cols
            = remove_outliers_loop quantile d
                (filter (fun col => existsb (String.eqb col) (df_columns df))
                   cols)).
  { induction cols as [|col rest IH]; intros d Hd; [reflexivity|].
    simpl. destruct (existsb (String.eqb col) (df_columns df)) eqn:E.
    - simpl.
      destruct (remove_outliers_step quantile d col) as [d1|e] eqn:Es;
        cbn [Res.bind]; [|reflexivity].
      apply IH.
      destruct (remove_outliers_step_spec d d1 col Es) as [Hc _]. congruence.
    - unfold remove_outliers_step at 1. rewrite Hd, E. cbn [Res.bind].
      apply IH. exact Hd. }
  split; [apply Hgen; reflexivity|].
  intros Hnone. rewrite (Hgen columns df eq_refl).
  replace (filter _ columns) with (@nil string); [reflexivity|].
  symmetry. induction columns as [|col rest IH]; [reflexivity|].
  simpl. destruct (existsb (String.eqb col) (df_columns df)) eqn:E.
  - apply existsb_eqb_In in E. exfalso. apply (Hnone col); [now left | exact E].
  - apply IH. intros c Hc. apply Hnone. now right.
Qed.

End Facts.

(** Witnesses of X19 and X20: the example prices, trimmed on their price
    and on a label they do not have. *)
Lemma remove_outliers_keeps_order_witness :
  exists df',
    remove_outliers level_quantile example_prices ["Price"; "Area"] = Ok df' /\
    df_columns df' = df_columns example_prices.
Proof.
  eexists. split; [vm_compute; reflexivity|].
  apply (remove_outliers_keeps_order level_quantile example_prices _
           ["Price"; "Area"]).
  vm_compute. reflexivity.
Defined.

Lemma remove_outliers_drops_nan_witness :
  exists df',
    remove_outliers level_quantile example_prices ["Price"; "Area"] = Ok df' /\
    forall row, In row (df_rows df') ->
      exists x, as_number (cell example_prices row "Price") = Ok x /\
                is_nan x = false.
Proof.
  eexists. split; [vm_compute; reflexivity|].
  apply (remove_outliers_drops_nan level_quantile example_prices _
           ["Price"; "Area"]).
  - vm_compute. reflexivity.
  - simpl. tauto.
  - simpl. tauto.
Defined.

End OutlierFacts.

(** ** The examples, run *)

Lemma example_ready : ready_to_run grid_distance 0 1 2 3 example_world.
Proof.
  unfold ready_to_run. simpl.
  split; [unfold has_column; simpl; tauto|].
  split; [unfold has_column; simpl; tauto|].
  split; [exact example_lookups|].
  split; [exact example_labels_new|].
  repeat split; lia.
Defined.

(** Witness of X10: the two example subjects, one per batch. *)
Lemma batch_loop_output_witness :
  exists w' lines,
    batch_loop grid_distance example_service 1 0 1 2 3 (PStr "token")
      example_world = (Ok tt, w') /\
    out_file w' = lines /\
    map (line_cells 3) lines = df_rows example_hdbs.
Proof.
  destruct (batch_loop_output grid_distance example_service 1 0 1 2 3
              (PStr "token") example_world)
    as [w' [lines [H1 [H2 [_ [_ [H3 _]]]]]]].
  - lia.
  - unfold df_wf. simpl. repeat constructor.
  - exact example_ready.
  - exists w', lines. repeat split; assumption.
Defined.

(** Witness of X11: the example run in batches of one. *)
Lemma batch_loop_keeps_tables_witness :
  exists w',
    batch_loop grid_distance example_service 1 0 1 2 3 (PStr "token")
      example_world = (Ok tt, w') /\
    heap w' 0 = example_hdbs /\ heap w' 1 = example_candidates /\
    heap w' 2 = example_candidates /\ heap w' 3 = example_candidates.
Proof.
  apply (batch_loop_keeps_tables grid_distance example_service 1 0 1 2 3
           (PStr "token") example_world (le_n 1) example_ready).
Defined.

(** Witness of X12: the example run in batches of one: two subjects, two
    batches, sixty seconds. *)
Lemma batch_loop_cooldowns_witness :
  exists w' evs,
    batch_loop grid_distance example_service 1 0 1 2 3 (PStr "token")
      example_world = (Ok tt, w') /\
    trace w' = trace example_world ++ evs /\
    count is_sleep evs = 2 /\
    slept evs = 60%Z /\
    2 = 2 / 1 + 0 /\
    (1 <= 2 -> last evs (EvSleep 0) = EvSleep 30).
Proof.
  apply (batch_loop_cooldowns grid_distance example_service 1 0 1 2 3
           (PStr "token") example_world (le_n 1) example_ready).
Defined.

(** Witness of X13: a subject table without rows. *)
Lemma batch_loop_no_subject_witness :
  batch_loop grid_distance example_service 100 0 1 2 3 (PStr "token")
    (subjects_world 0)
  = (Ok tt, subjects_world 0).
Proof.
  apply (batch_loop_no_subject grid_distance example_service 100 0 1 2 3
           (PStr "token") (subjects_world 0)).
  - lia.
  - reflexivity.
Defined.

(** X22. A subject frame without rows still gets its six columns: with the
    two coordinate columns and none of the six labels, the call returns
    after adding the six labels, sends no request and needs no candidate,
    so that empty candidate tables go unnoticed. *)
Theorem engineer_no_subject
    (haversine : pyval * pyval -> pyval * pyval -> result float)
    (routing_service : list event -> request -> http_outcome)
    (hdbs mrts malls schools : ref) (api_token : pyval) (w : world) :
  df_rows (heap w hdbs) = [] ->
  has_column (heap w hdbs) "Lat" ->
  has_column (heap w hdbs) "Long" ->
  (forall name, In name new_columns -> ~ In name (df_columns (heap w hdbs))) ->
  exists w',
    engineer_distance_features haversine routing_service
      hdbs mrts malls schools api_token w = (Ok hdbs, w') /\
    heap w' hdbs
    = {| df_columns := df_columns (heap w hdbs) ++ new_columns;
         df_rows := [] |} /\
    trace w' = trace w /\ out_file w' = out_file w.
Proof.
  intros Hrows Hlat Hlong Hnew.
  destruct (engineer_eval haversine routing_service hdbs mrts malls schools
              api_token w Hlat Hlong)
    as [es [w' [Hes [Hrun [Hheap [_ [_ [Htr Hout]]]]]]]].
  { unfold points. rewrite Hrows. intros p []. }
  { exact Hnew. }
  unfold points in Hes, Htr. rewrite Hrows in Hes, Htr. simpl in Hes, Htr.
  destruct es as [|e es]; [|contradiction].
  exists w'. split; [exact Hrun|]. split.
  - rewrite Hheap. unfold enriched_frame. rewrite Hrows. reflexivity.
  - split; [|exact Hout]. rewrite Htr. unfold all_requests. simpl.
    apply app_nil_r.
Qed.

(** Witness of X22: no subject and no candidate at all. *)
Lemma engineer_no_subject_witness :
  exists w',
    engineer_distance_features grid_distance example_service 0 0 0 0
      (PStr "token") (updated 0 no_candidates example_world) = (Ok 0, w') /\
    trace w' = [].
Proof.
  destruct (engineer_no_subject grid_distance example_service 0 0 0 0
              (PStr "token") (updated 0 no_candidates example_world))
    as [w' [H1 [_ [H2 _]]]].
  - reflexivity.
  - unfold has_column. simpl. tauto.
  - unfold has_column. simpl. tauto.
  - intros name Hin Hc. simpl in Hin, Hc.
    repeat (destruct Hin as [<-|Hin];
            [repeat (destruct Hc as [Hc|Hc]; [discriminate|]); contradiction|]).
    contradiction.
  - exists w'. split; assumption.
Defined.
